(** * USU2: the response store, its codec and the dashboard insights

    A shallow embedding of [USU2.py]: the encoding of a response as a
    spreadsheet row ([save_to_sheets]), the decoding of rows
    ([load_from_sheets]), the handlers that keep the session's responses
    and the sheet in step, and the aggregates of the analysis dashboard. *)

From Stdlib Require Import Bool Ascii String List ZArith QArith Qabs Lia Arith.
From Stdlib Require Import DecimalString DecimalZ DecimalPos DecimalN.
From Stdlib Require Import Sorted Permutation.
From Stdlib Require Import SpecFloat.
Import ListNotations.

Local Open Scope string_scope.
Local Open Scope list_scope.
Local Open Scope Z_scope.

(** ** The Python built-ins the program relies on

    A [string] stands for a Python [str] whose characters have code
    points below 256. *)

Module Py.

(** Truth value of a [str] in a condition: only the empty string is false. *)
Definition truthy (s : string) : bool :=
  match s with
  | EmptyString => false
  | String _ _ => true
  end.

(** [str(n)] for an [int].  (The limit that recent versions of Python
    put on the number of digits converted is not modelled, here and in
    [int].) *)
Definition str (n : Z) : string := NilZero.string_of_int (Z.to_int n).

(** Characters that [int()] strips from both ends: tab to carriage
    return, the space, and the two white-space characters between code
    points 128 and 255 (next line and no-break space). *)
Definition is_space (c : ascii) : bool :=
  let n := nat_of_ascii c in
  ((9 <=? n) && (n <=? 13) || (n =? 32) || (n =? 133) || (n =? 160))%nat.

Definition digit (c : ascii) : option Z :=
  let n := nat_of_ascii c in
  if ((48 <=? n) && (n <=? 57))%nat then Some (Z.of_nat n - 48) else None.

Fixpoint lstrip (s : string) : string :=
  match s with
  | String c r => if is_space c then lstrip r else s
  | EmptyString => EmptyString
  end.

(** Dropping trailing white space: a character is kept when something
    other than white space follows it or it is none itself. *)
Fixpoint rstrip (s : string) : string :=
  match s with
  | EmptyString => EmptyString
  | String c r =>
      match rstrip r with
      | EmptyString => if is_space c then EmptyString else String c EmptyString
      | r' => String c r'
      end
  end.

Definition strip (s : string) : string := rstrip (lstrip s).

(** The digits of a decimal literal, most significant first.  A single
    underscore may separate two digits; [after_digit] records that the
    previous character was a digit. *)
Fixpoint digits (acc : Z) (after_digit : bool) (s : string) : option Z :=
  match s with
  | EmptyString => if after_digit then Some acc else None
  | String c r =>
      match digit c with
      | Some d => digits (10 * acc + d) true r
      | None =>
          if (Ascii.eqb c "_" && after_digit)%bool then digits acc false r
          else None
      end
  end.

(** [int(s)] for a [str]: [None] stands for [ValueError]. *)
Definition int (s : string) : option Z :=
  match strip s with
  | EmptyString => None
  | String c r =>
      if Ascii.eqb c "-" then option_map Z.opp (digits 0 false r)
      else if Ascii.eqb c "+" then digits 0 false r
      else digits 0 false (String c r)
  end.

(** [sep.join(items)]. *)
Definition join (sep : string) (items : list string) : string :=
  String.concat sep items.

(** [s.split(sep)] for a non-empty [sep], scanning from the left for
    occurrences that do not overlap.  [skip] counts the characters of a
    separator just matched that are still to be passed over.  (Python
    raises [ValueError] on an empty separator; the program only ever
    passes [", "].) *)
Fixpoint split_from (sep : string) (skip : nat) (s : string) : list string :=
  match s with
  | EmptyString => [EmptyString]
  | String c r =>
      match skip with
      | S k => split_from sep k r
      | O =>
          if String.prefix sep s
          then EmptyString :: split_from sep (String.length sep - 1) r
          else match split_from sep 0 r with
               | h :: t => String c h :: t
               | [] => [String c EmptyString]
               end
      end
  end.

Definition split (sep s : string) : list string := split_from sep 0 s.

(** [sub in s]. *)
Fixpoint contains (sub s : string) : bool :=
  (String.prefix sub s ||
   match s with
   | EmptyString => false
   | String _ r => contains sub r
   end)%bool.

(** No character of [s] is white space. *)
Definition no_space (s : string) : Prop :=
  forall c, In c (list_ascii_of_string s) -> is_space c = false.

End Py.

(** ** The response record and its row codec *)

(** A response as the form builds it (the [response_data] dict): every
    key is present, [satisfaction] is an [int], the five multi-selects
    are lists of strings and all other values are strings. *)
Record response : Type := mkResponse {
  timestamp : string;
  name : string;
  email : string;
  position : string;
  tenure : string;
  satisfaction : Z;
  role_dislikes : string;
  executive_concerns : string;
  council_dynamics : string;
  student_body_challenges : string;
  achievements : string;
  weaknesses : string;
  skills_needed : string;
  constitution_knowledge : string;
  support_gaps : list string;
  support_details : string;
  code_of_conduct : string;
  financial_challenges : string;
  financial_impact : list string;
  financial_details : string;
  academic_challenges : string;
  academic_impact : list string;
  academic_details : string;
  support_needs : list string;
  retreat_goals : string;
  training_topics : string;
  retreat_priorities : list string;
  previous_retreats : string;
  additional_comments : string
}.

(** A row of the sheet: the cells of columns A to AC. *)
Definition row : Type := list string.

Module Codec.

Definition delimiter : string := ", ".

Definition columns : nat := 29.

(** The [row] list built in [save_to_sheets]. *)
Definition encodeRow (r : response) : row :=
  [ timestamp r;
    name r;
    email r;
    position r;
    tenure r;
    Py.str (satisfaction r);
    role_dislikes r;
    executive_concerns r;
    council_dynamics r;
    student_body_challenges r;
    achievements r;
    weaknesses r;
    skills_needed r;
    constitution_knowledge r;
    Py.join delimiter (support_gaps r);
    support_details r;
    code_of_conduct r;
    financial_challenges r;
    Py.join delimiter (financial_impact r);
    financial_details r;
    academic_challenges r;
    Py.join delimiter (academic_impact r);
    academic_details r;
    Py.join delimiter (support_needs r);
    retreat_goals r;
    training_topics r;
    Py.join delimiter (retreat_priorities r);
    previous_retreats r;
    additional_comments r ].

(** [while len(row) < 29: row.append("")]. *)
Definition pad (cells : row) : row :=
  cells ++ repeat EmptyString (columns - length cells).

(** [row[i]] on a padded row; every index the decoder uses is below 29,
    so the default of [nth] is never taken. *)
Definition cell (cells : row) (i : nat) : string := nth i cells EmptyString.

(** [int(row[5]) if row[5] else 3]; [None] when [int] raises. *)
Definition decode_satisfaction (c : string) : option Z :=
  if Py.truthy c then Py.int c else Some 3.

(** [row[i].split(", ") if row[i] else []]. *)
Definition decode_multi (c : string) : list string :=
  if Py.truthy c then Py.split delimiter c else [].

(** The body of the loop of [load_from_sheets] for one row: [None] when
    the conversion raises [ValueError]. *)
Definition decodeRow (cells : row) : option response :=
  let row := pad cells in
  match decode_satisfaction (cell row 5) with
  | None => None
  | Some sat =>
      Some {|
        timestamp := cell row 0;
        name := cell row 1;
        email := cell row 2;
        position := cell row 3;
        tenure := cell row 4;
        satisfaction := sat;
        role_dislikes := cell row 6;
        executive_concerns := cell row 7;
        council_dynamics := cell row 8;
        student_body_challenges := cell row 9;
        achievements := cell row 10;
        weaknesses := cell row 11;
        skills_needed := cell row 12;
        constitution_knowledge := cell row 13;
        support_gaps := decode_multi (cell row 14);
        support_details := cell row 15;
        code_of_conduct := cell row 16;
        financial_challenges := cell row 17;
        financial_impact := decode_multi (cell row 18);
        financial_details := cell row 19;
        academic_challenges := cell row 20;
        academic_impact := decode_multi (cell row 21);
        academic_details := cell row 22;
        support_needs := decode_multi (cell row 23);
        retreat_goals := cell row 24;
        training_topics := cell row 25;
        retreat_priorities := decode_multi (cell row 26);
        previous_retreats := cell row 27;
        additional_comments := cell row 28
      |}
  end.

(** The whole loop: rows are decoded in order and the first one that
    raises ends the loop with that exception. *)
Fixpoint decodeRows (values : list row) : option (list response) :=
  match values with
  | [] => Some []
  | cells :: rest =>
      match decodeRow cells with
      | None => None
      | Some r =>
          match decodeRows rest with
          | None => None
          | Some rs => Some (r :: rs)
          end
      end
  end.

(** The multi-valued fields of a response, and the condition that no
    selected option contains the delimiter. *)
Definition multi_valued (r : response) : list (list string) :=
  [ support_gaps r; financial_impact r; academic_impact r;
    support_needs r; retreat_priorities r ].

Definition delimiter_free (options : list string) : Prop :=
  Forall (fun x => Py.contains delimiter x = false) options.

End Codec.

(** ** Sample data *)

Module Sample.

(** A response as the form submits it. *)
Definition filled : response :=
  mkResponse "2024-05-01T10:00:00" "Ann" "ann@utech.edu.jm" "President"
    "First year on Council" 4 "time" "" "" "" "three events" "" "budgeting"
    "Basic understanding"
    ["Training and professional development";
     "Time management and workload balance"]
    "" "" "Yes" ["My personal life and well-being"] "" "No" [] ""
    ["More flexible Council meeting schedules"] "unity" ""
    ["Team building and Council unity"; "Skills training and workshops"]
    "" "".

(** A response with chosen values for the fields the dashboard reads. *)
Definition answer (sat : Z) (financial academic : string)
  (priorities : list string) : response :=
  mkResponse "" "" "" "" "" sat "" "" "" "" "" "" "" "" [] "" ""
    financial [] "" academic [] "" [] "" "" priorities "" "".

(** The same response as [filled] but for one multi-select, which holds
    a single empty option. *)
Definition empty_option : response :=
  mkResponse "2024-05-01T10:00:00" "Ann" "ann@utech.edu.jm" "President"
    "First year on Council" 4 "time" "" "" "" "three events" "" "budgeting"
    "Basic understanding"
    [""]
    "" "" "Yes" ["My personal life and well-being"] "" "No" [] ""
    ["More flexible Council meeting schedules"] "unity" ""
    ["Team building and Council unity"; "Skills training and workshops"]
    "" "".

(** Ten responses of which the first [k] report financial challenges. *)
Definition council (k : nat) : list response :=
  repeat (answer 2 "Yes" "No" []) k ++ repeat (answer 4 "No" "Yes" []) (10 - k).

(** Five responses with satisfaction 5, 4, 3, 2 and 1. *)
Definition spread : list response :=
  map (fun sat => answer sat "No" "No" []) [5; 4; 3; 2; 1].

(** Rows as a read of the sheet may return them. *)
Definition short_row : row := ["2024-05-01T10:00:00"; "Ann"; "ann@utech.edu.jm"].

Definition out_of_range_row : row :=
  ["2024-05-02T09:30:00"; "Bob"; ""; ""; "Second year on Council"; "7"].

Definition corrupt_row : row :=
  ["2024-05-03T08:15:00"; "Cy"; ""; ""; "First year on Council"; "n/a"].

Definition long_row : row := Codec.encodeRow filled ++ ["stray"; "cells"].

End Sample.

(** ** The session's responses and the sheet *)

Module Store.

(** What the Sheets service does when the program turns to it: it
    answers, no service object can be built ([get_sheets_service]
    returns [None]), or the request raises (an [HttpError]). *)
Inductive service : Type :=
  | Responds
  | Unavailable (e : string)
  | Raises (e : string).

(** The exceptions the handlers of [save_to_sheets] and
    [load_from_sheets] catch. *)
Inductive exn : Type :=
  | RemoteError (e : string)
  | ValueError (literal : string).

(** What the page shows the user, by the call that shows it. *)
Inductive notice : Type :=
  | connect_error (e : string)  (* st.error: Error connecting to Google Sheets *)
  | save_error (e : exn)        (* st.error: Error saving to Google Sheets *)
  | load_error (e : exn)        (* st.error: Error loading from Google Sheets *)
  | saved_to_sheets             (* st.success: saved to Google Sheets *)
  | saved_locally_only          (* st.warning: Saved locally, but couldn't save to Google Sheets *)
  | recorded                    (* st.success: Your responses have been recorded *)
  | refreshed                   (* st.success: Data refreshed! *)
  | synced                      (* st.success: Synced with Google Sheets! *)
  | cleared.                    (* st.success: All responses cleared! *)

Inductive level : Type := success | warning | error.

Definition level_of (n : notice) : level :=
  match n with
  | connect_error _ | save_error _ | load_error _ => error
  | saved_locally_only => warning
  | saved_to_sheets | recorded | refreshed | synced | cleared => success
  end.

(** A request sent to the Sheets API. *)
Inductive request : Type :=
  | values_append (cells : row)   (* values().append(range='Responses!A:AC') *)
  | values_get.                   (* values().get(range='Responses!A2:AC') *)

(** The state the handlers act on: [st.session_state], the data rows of
    the sheet (below the header, as a read returns them), the requests
    sent so far and the notices shown so far, oldest first. *)
Record app : Type := mkApp {
  responses : list response;
  admin_logged_in : bool;
  sheet : list row;
  requests : list request;
  shown : list notice
}.

Definition show (n : notice) (a : app) : app :=
  {| responses := responses a; admin_logged_in := admin_logged_in a;
     sheet := sheet a; requests := requests a; shown := shown a ++ [n] |}.

Definition send (q : request) (a : app) : app :=
  {| responses := responses a; admin_logged_in := admin_logged_in a;
     sheet := sheet a; requests := requests a ++ [q]; shown := shown a |}.

Definition set_sheet (rows : list row) (a : app) : app :=
  {| responses := responses a; admin_logged_in := admin_logged_in a;
     sheet := rows; requests := requests a; shown := shown a |}.

Definition set_responses (rs : list response) (a : app) : app :=
  {| responses := rs; admin_logged_in := admin_logged_in a;
     sheet := sheet a; requests := requests a; shown := shown a |}.

Section Handlers.

(** [USE_GOOGLE_SHEETS], read once from the secrets. *)
Variable USE_GOOGLE_SHEETS : bool.

(** [get_sheets_service]: whether a service object is returned. *)
Definition get_sheets_service (sv : service) (a : app) : bool * app :=
  match sv with
  | Unavailable e => (false, show (connect_error e) a)
  | Responds | Raises _ => (true, a)
  end.

Definition save_to_sheets (sv : service) (response_data : response) (a : app)
  : bool * app :=
  if negb USE_GOOGLE_SHEETS then (false, a)
  else
    let (service, a) := get_sheets_service sv a in
    if negb service then (false, a)
    else
      let row := Codec.encodeRow response_data in
      let a := send (values_append row) a in
      match sv with
      | Raises e => (false, show (save_error (RemoteError e)) a)
      | Responds | Unavailable _ => (true, set_sheet (sheet a ++ [row]) a)
      end.

(** The first cell whose conversion raises, for the text of the
    exception. *)
Fixpoint bad_literal (values : list row) : string :=
  match values with
  | [] => EmptyString
  | cells :: rest =>
      match Codec.decodeRow cells with
      | None => Codec.cell (Codec.pad cells) 5
      | Some _ => bad_literal rest
      end
  end.

Definition load_from_sheets (sv : service) (a : app) : list response * app :=
  if negb USE_GOOGLE_SHEETS then ([], a)
  else
    let (service, a) := get_sheets_service sv a in
    if negb service then ([], a)
    else
      let a := send values_get a in
      match sv with
      | Raises e => ([], show (load_error (RemoteError e)) a)
      | Responds | Unavailable _ =>
          let values := sheet a in
          match values with
          | [] => ([], a)
          | _ :: _ =>
              match Codec.decodeRows values with
              | Some responses => (responses, a)
              | None =>
                  ([], show (load_error (ValueError (bad_literal values))) a)
              end
          end
      end.

(** The first run of a session: [st.session_state.responses] is
    initialised from the sheet when it is in use. *)
Definition startup (sv : service) (sheet0 : list row) : app :=
  let a := mkApp [] false sheet0 [] [] in
  if USE_GOOGLE_SHEETS
  then let (rs, a) := load_from_sheets sv a in set_responses rs a
  else a.

(** The form's [if submitted:] block, with [response_data] built. *)
Definition submit (sv : service) (response_data : response) (a : app) : app :=
  let a :=
    if USE_GOOGLE_SHEETS
    then
      let (saved, a) := save_to_sheets sv response_data a in
      if saved then show saved_to_sheets a else show saved_locally_only a
    else a in
  let a := set_responses (responses a ++ [response_data]) a in
  show recorded a.

(** The dashboard's refresh button, pressed. *)
Definition refresh (sv : service) (a : app) : app :=
  if USE_GOOGLE_SHEETS
  then
    let (rs, a) := load_from_sheets sv a in
    show refreshed (set_responses rs a)
  else a.

(** The admin page's sync button, pressed. *)
Definition sync (sv : service) (a : app) : app :=
  if USE_GOOGLE_SHEETS
  then
    let (rs, a) := load_from_sheets sv a in
    show synced (set_responses rs a)
  else a.

(** The body under the admin page's clear button, in a run in which the
    button returns [True]; [confirmed] is what the check box created
    there returns in that run.  Which values it can return is the matter
    of [Rerun] below. *)
Definition clear (confirmed : bool) (a : app) : app :=
  if confirmed then show cleared (set_responses [] a) else a.

End Handlers.

End Store.

(** ** The analysis dashboard *)

Module Insights.

(** *** The pandas operations the dashboard uses

    pandas is not part of the program's source: the definitions here
    are models of the pandas operations the dashboard calls.  Numbers
    that pandas and Python hold as binary64 floats (the mean,
    [len(df) * 0.3]) are exact rationals in this module; [Binary64]
    below holds the same numbers and tests as binary64 floats, and the
    properties relate the two. *)

Definition Qltb (x y : Q) : bool := negb (Qle_bool y x).

Definition total (xs : list Z) : Z := fold_left Z.add xs 0.

(** The exact quotient of the sum by the count, which [Series.mean()]
    rounds to binary64 ([Binary64.mean]); [None] is the NaN of an empty
    series. *)
Definition mean (xs : list Z) : option Q :=
  match xs with
  | [] => None
  | _ :: _ => Some (total xs # Pos.of_nat (length xs))
  end.

(** [len(df[df[column] == 'Yes'])]. *)
Definition count_yes (column : response -> string) (df : list response) : Z :=
  Z.of_nat (length (filter (fun r => String.eqb (column r) "Yes") df)).

(** [for xs in df[column]: if isinstance(xs, list): all.extend(xs)];
    every value of these columns is a list. *)
Definition collect (column : response -> list string) (df : list response)
  : list string :=
  fold_left (fun all r => all ++ column r) df [].

(** A model of pandas: counting labels as its hash table does, a
    label seen for the first time going after those already there. *)
Fixpoint bump (label : string) (counts : list (string * nat))
  : list (string * nat) :=
  match counts with
  | [] => [(label, 1%nat)]
  | (l, n) :: rest =>
      if String.eqb label l then (l, S n) :: rest
      else (l, n) :: bump label rest
  end.

Definition tally (xs : list string) : list (string * nat) :=
  fold_left (fun counts x => bump x counts) xs [].

(** A model of pandas: sorting by count, largest first, entries of
    equal count staying in the order they had.  pandas documents the
    descending order only; the order among equal counts is an
    assumption about its sort, the one the specification words as ties
    in first-seen order. *)
Fixpoint insert (p : string * nat) (sorted : list (string * nat))
  : list (string * nat) :=
  match sorted with
  | [] => [p]
  | q :: rest =>
      if (snd p <? snd q)%nat then q :: insert p rest else p :: q :: rest
  end.

Definition sort_counts (counts : list (string * nat)) : list (string * nat) :=
  fold_right insert [] counts.

(** [pd.Series(xs).value_counts()], by the two models above. *)
Definition value_counts (xs : list string) : list (string * nat) :=
  sort_counts (tally xs).

(** [.head(n)]. *)
Definition head (n : nat) (counts : list (string * nat)) : list (string * nat) :=
  firstn n counts.

(** *** Key insights and recommendations *)

Inductive finding : Type :=
  | low_satisfaction           (* st.error: Low Satisfaction Alert *)
  | financial_support_needed   (* st.warning: Financial Support Needed *)
  | academic_balance_concerns  (* st.warning: Academic Balance Concerns *)
  | retreat_focus_areas (index : list string).
                               (* st.info: Retreat Focus Areas *)

(** The text of the focus-areas notice. *)
Definition focus_text (top_3_index : list string) : string :=
  "**Retreat Focus Areas:** Most requested priorities are: "
  ++ Py.join ", " top_3_index ++ ". Plan retreat sessions accordingly.".

Definition when (b : bool) (f : finding) : list finding :=
  if b then [f] else [].

(** What the [else] branch of the dashboard computes from a non-empty
    [st.session_state.responses], each figure as its statement
    computes it, in exact arithmetic.  Whether a run gets as far as a
    figure is not said here: the satisfaction chart, drawn after the
    metrics and before the other charts and the insights, may raise,
    and [Chart.render] is the run of the page. *)
Record figures : Type := mkFigures {
  total_responses : Z;
  avg_sat : option Q;
  financial_yes : Z;
  academic_yes : Z;
  gap_counts : list (string * nat);
  priority_counts : list (string * nat);
  findings : list finding
}.

Definition analyse (df : list response) : figures :=
  let len_df := Z.of_nat (length df) in
  let avg_sat := mean (map satisfaction df) in
  let financial_yes := count_yes financial_challenges df in
  let academic_yes := count_yes academic_challenges df in
  let all_gaps := collect support_gaps df in
  let all_priorities := collect retreat_priorities df in
  let priority_counts := value_counts all_priorities in
  {| total_responses := len_df;
     avg_sat := avg_sat;
     financial_yes := financial_yes;
     academic_yes := academic_yes;
     gap_counts := head 8 (value_counts all_gaps);
     priority_counts := priority_counts;
     findings :=
       when (match avg_sat with Some m => Qltb m 3 | None => false end)
            low_satisfaction
       ++ when (Qltb (inject_Z len_df * (3 # 10)) (inject_Z financial_yes))
               financial_support_needed
       ++ when (Qltb (inject_Z len_df * (3 # 10)) (inject_Z academic_yes))
               academic_balance_concerns
       ++ match all_priorities with
          | [] => []
          | _ :: _ =>
              let top_3 := head 3 priority_counts in
              [retreat_focus_areas (map fst top_3)]
          end |}.

(** The dashboard page: with no responses it shows a notice and
    computes nothing. *)
Definition dashboard (responses : list response) : option figures :=
  match responses with
  | [] => None
  | _ :: _ => Some (analyse responses)
  end.

End Insights.

(** ** The dashboard's comparisons in binary64

    The same tests as Python evaluates them, on IEEE 754 double
    precision numbers. *)

Module Binary64.

Definition prec : Z := 53.
Definition emax : Z := 1024.

(** [float(z)]. *)
Definition of_int (z : Z) : spec_float := binary_normalize prec emax z 0 false.

(** The literal [0.3]: the double nearest to three tenths. *)
Definition lit_0_3 : spec_float := S754_finite false 5404319552844595 (-54).

(** [count > len_df * 0.3]. *)
Definition over_30_percent (count len_df : Z) : bool :=
  SFltb (SFmul prec emax (of_int len_df) lit_0_3) (of_int count).

(** [sum / n < 3], the mean being the sum divided by the count. *)
Definition mean_below_3 (sum n : Z) : bool :=
  SFltb (SFdiv prec emax (of_int sum) (of_int n)) (of_int 3).

(** The pairs [(count, len_df)] with [count <= len_df <= bound]. *)
Definition count_pairs (bound : nat) : list (nat * nat) :=
  flat_map (fun n => map (fun c => (c, n)) (seq 0 (S n))) (seq 0 (S bound)).

(** The pairs [(sum, n)] with [1 <= n <= bound] and [sum <= 5 * n]. *)
Definition sum_pairs (bound : nat) : list (nat * nat) :=
  flat_map (fun n => map (fun s => (s, n)) (seq 0 (S (5 * n)))) (seq 1 bound).

(** Whether binary64 and exact arithmetic give the same answer. *)
Definition agree_on_count (p : nat * nat) : bool :=
  let (c, n) := p in
  Bool.eqb (over_30_percent (Z.of_nat c) (Z.of_nat n))
           (Insights.Qltb (inject_Z (Z.of_nat n) * (3 # 10))
                          (inject_Z (Z.of_nat c))).

Definition agree_on_mean (p : nat * nat) : bool :=
  let (s, n) := p in
  Bool.eqb (mean_below_3 (Z.of_nat s) (Z.of_nat n))
           (Insights.Qltb (Z.of_nat s # Pos.of_nat n) 3).

(** [df['satisfaction'].mean()]: pandas adds the integers up in
    binary64, which is exact as long as the sums stay below [2 ^ 53],
    and divides the sum by the count; the mean of an empty series is
    0.0 / 0.0, the NaN. *)
Definition mean (xs : list Z) : spec_float :=
  SFdiv prec emax (of_int (Insights.total xs)) (of_int (Z.of_nat (length xs))).

(** [avg_sat] of the dashboard: there is none when there are no
    responses, the page showing its notice instead. *)
Definition avg_sat (responses : list response) : option spec_float :=
  match responses with
  | [] => None
  | _ :: _ => Some (mean (map satisfaction responses))
  end.

(** The rational a double stands for; none for NaN and the
    infinities. *)
Definition value (x : spec_float) : option Q :=
  match x with
  | S754_zero _ => Some 0%Q
  | S754_finite s m e =>
      let v := if e <? 0 then Z.pos m # Z.to_pos (2 ^ (- e))
               else inject_Z (Z.pos m * 2 ^ e) in
      Some (if s then (- v)%Q else v)
  | S754_infinity _ | S754_nan => None
  end.

(** The insights as the program decides them, its tests evaluated in
    binary64. *)
Definition findings (df : list response) : list Insights.finding :=
  let len_df := Z.of_nat (length df) in
  let all_priorities := Insights.collect retreat_priorities df in
  Insights.when (SFltb (mean (map satisfaction df)) (of_int 3))
                Insights.low_satisfaction
  ++ Insights.when
       (over_30_percent (Insights.count_yes financial_challenges df) len_df)
       Insights.financial_support_needed
  ++ Insights.when
       (over_30_percent (Insights.count_yes academic_challenges df) len_df)
       Insights.academic_balance_concerns
  ++ match all_priorities with
     | [] => []
     | _ :: _ =>
         [Insights.retreat_focus_areas
            (map fst (Insights.head 3 (Insights.value_counts all_priorities)))]
     end.

(** Two pieces of [binary_round_aux], named for the proofs: its end,
    which shifts a rounded mantissa once more when it has come to 54
    bits, and the location after one shift to the right. *)
Definition finish (sx : bool) (m e : Z) : spec_float :=
  let '(mrs, e') := shr_fexp prec emax m e loc_Exact in
  match shr_m mrs with
  | Z0 => S754_zero sx
  | Zpos m => if e' <=? emax - prec then S754_finite sx m e' else S754_infinity sx
  | _ => S754_nan
  end.

Definition shifted (m : Z) (l : location) : location :=
  loc_of_shr_record
    {| shr_m := m / 2; shr_r := Z.odd m;
       shr_s := match l with loc_Exact => false | _ => true end |}.

End Binary64.

(** ** The aggregates as the specification words them

    These follow the specification, not the program: the findings of
    the dashboard are compared with them below. *)

Module Stated.

Definition satisfaction_sum (records : list response) : Z :=
  fold_right Z.add 0 (map satisfaction records).

(** "arithmetic mean of the bounded integer field; defined as 0 for an
    empty collection" (division by zero gives 0 in [Q]). *)
Definition meanSatisfaction (records : list response) : Q :=
  inject_Z (satisfaction_sum records) / inject_Z (Z.of_nat (length records)).

(** "fraction of records satisfying a predicate; 0 for empty input". *)
Definition proportion (records : list response) (predicate : response -> bool)
  : Q :=
  inject_Z (Z.of_nat (length (filter predicate records)))
  / inject_Z (Z.of_nat (length records)).

Definition reports_yes (column : response -> string) (r : response) : bool :=
  String.eqb (column r) "Yes".

(** "each selected option in every record's sequence contributes one
    count": the options selected over all records, in order. *)
Definition selected (column : response -> list string)
  (records : list response) : list string :=
  flat_map column records.

(** The position at which a category is first seen in the input. *)
Fixpoint first_seen (category : string) (input : list string) : nat :=
  match input with
  | [] => 0
  | x :: rest =>
      if String.eqb category x then 0 else S (first_seen category rest)
  end.

(** "sorted by count descending, ties broken by first-seen category
    order": what it is for one entry to come before another. *)
Definition ranks_before (input : list string) (p q : string * nat) : Prop :=
  (snd q < snd p)%nat
  \/ (snd p = snd q
      /\ (first_seen (fst p) input < first_seen (fst q) input)%nat).

End Stated.

(** ** Sample sessions *)

Module Scenario.

(** A session whose sheet holds [rows] and whose responses are [local]. *)
Definition session (local : list response) (rows : list row) : Store.app :=
  Store.mkApp local false rows [] [].

(** A sheet with a good row followed by one whose satisfaction cell is
    not a number. *)
Definition corrupted_sheet : list row :=
  [Codec.encodeRow Sample.filled; Sample.corrupt_row].

End Scenario.

(** ** The assessment form *)

Module Form.

(** The options of the five multi-selects. *)
Definition support_gaps_options : list string :=
  [ "Executive Board guidance and mentorship";
    "Fellow Council members collaboration";
    "University Administration support";
    "Financial resources for portfolio activities";
    "Students' Union Office resources and facilities";
    "Training and professional development";
    "Time management and workload balance";
    "Communication channels and information flow" ].

Definition financial_impact_options : list string :=
  [ "My personal life and well-being";
    "My ability to fulfill my Council role";
    "My ability to maintain my academics" ].

Definition academic_impact_options : list string :=
  [ "My personal stress and well-being";
    "My ability to fulfill my Council role";
    "My GPA and academic standing" ].

Definition support_needs_options : list string :=
  [ "Time management and study skills workshop";
    "Financial literacy and budgeting resources";
    "Academic or leadership mentorship";
    "Access to counseling or wellness services";
    "More flexible Council meeting schedules" ].

Definition retreat_priorities_options : list string :=
  [ "Team building and Council unity";
    "Strategic planning for the year";
    "Skills training and workshops";
    "Addressing conflicts and improving communication";
    "Constitution review and governance";
    "Improving student engagement strategies";
    "Council member wellness and self-care" ].

(** The options of the satisfaction slider. *)
Definition satisfaction_options : list Z := [1; 2; 3; 4; 5].

(** What the widgets of the form return in the run in which it is
    submitted, and the clock.  The two impact multi-selects and the two
    detail areas exist only under a "Yes"; their fields are read only
    then. *)
Record widgets : Type := mkWidgets {
  now_isoformat : string;
  w_name : string;
  w_email : string;
  w_position : string;
  w_tenure : string;
  w_satisfaction : Z;
  w_role_dislikes : string;
  w_executive_concerns : string;
  w_council_dynamics : string;
  w_student_body_challenges : string;
  w_achievements : string;
  w_weaknesses : string;
  w_skills_needed : string;
  w_constitution_knowledge : string;
  w_support_gaps : list string;
  w_support_details : string;
  w_code_of_conduct : string;
  w_financial_challenges : string;
  w_financial_impact : list string;
  w_fin_details : string;
  w_academic_challenges : string;
  w_academic_impact : list string;
  w_acad_details : string;
  w_support_needs : list string;
  w_retreat_goals : string;
  w_training_topics : string;
  w_retreat_priorities : list string;
  w_previous_retreats : string;
  w_additional_comments : string
}.

(** The [response_data] dict of the [if submitted:] block. *)
Definition response_data (w : widgets) : response :=
  let financial_challenges := w_financial_challenges w in
  let financial_yes := String.eqb financial_challenges "Yes" in
  let financial_impact := if financial_yes then w_financial_impact w else [] in
  let financial_details :=
    if financial_yes then w_fin_details w else EmptyString in
  let academic_challenges := w_academic_challenges w in
  let academic_yes := String.eqb academic_challenges "Yes" in
  let academic_impact := if academic_yes then w_academic_impact w else [] in
  let academic_details :=
    if academic_yes then w_acad_details w else EmptyString in
  {| timestamp := now_isoformat w;
     name := w_name w;
     email := w_email w;
     position := w_position w;
     tenure := w_tenure w;
     satisfaction := w_satisfaction w;
     role_dislikes := w_role_dislikes w;
     executive_concerns := w_executive_concerns w;
     council_dynamics := w_council_dynamics w;
     student_body_challenges := w_student_body_challenges w;
     achievements := w_achievements w;
     weaknesses := w_weaknesses w;
     skills_needed := w_skills_needed w;
     constitution_knowledge := w_constitution_knowledge w;
     support_gaps := w_support_gaps w;
     support_details := w_support_details w;
     code_of_conduct := w_code_of_conduct w;
     financial_challenges := financial_challenges;
     financial_impact := financial_impact;
     financial_details := financial_details;
     academic_challenges := academic_challenges;
     academic_impact := academic_impact;
     academic_details := academic_details;
     support_needs := w_support_needs w;
     retreat_goals := w_retreat_goals w;
     training_topics := w_training_topics w;
     retreat_priorities := w_retreat_priorities w;
     previous_retreats := w_previous_retreats w;
     additional_comments := w_additional_comments w |}.

(** What Streamlit guarantees of the widgets: a slider returns one of
    its options and a multi-select a selection among its options. *)
Definition selections_within (w : widgets) : Prop :=
  In (w_satisfaction w) satisfaction_options
  /\ incl (w_support_gaps w) support_gaps_options
  /\ incl (w_financial_impact w) financial_impact_options
  /\ incl (w_academic_impact w) academic_impact_options
  /\ incl (w_support_needs w) support_needs_options
  /\ incl (w_retreat_priorities w) retreat_priorities_options.

(** The form's whole handler: build the response and submit it. *)
Definition submitted (use : bool) (sv : Store.service) (w : widgets)
  (a : Store.app) : Store.app :=
  Store.submit use sv (response_data w) a.

End Form.

(** ** The satisfaction chart and the page as a whole *)

Module Chart.

(** [sat_labels], a dict with the keys 1 to 5: [None] is [KeyError]. *)
Definition sat_labels (i : Z) : option string :=
  match i with
  | 1 => Some "Very Dissatisfied"
  | 2 => Some "Dissatisfied"
  | 3 => Some "Neutral"
  | 4 => Some "Satisfied"
  | 5 => Some "Very Satisfied"
  | _ => None
  end.

(** Counting a value into counts kept in ascending order of value. *)
Fixpoint bump_sorted (v : Z) (counts : list (Z * nat)) : list (Z * nat) :=
  match counts with
  | [] => [(v, 1%nat)]
  | (k, n) :: rest =>
      if v <? k then (v, 1%nat) :: counts
      else if v =? k then (k, S n) :: rest
      else (k, n) :: bump_sorted v rest
  end.

(** [df['satisfaction'].value_counts().sort_index()]: one entry for
    each value that occurs, in ascending order of value. *)
Definition sat_counts (df : list response) : list (Z * nat) :=
  fold_left (fun counts r => bump_sorted (satisfaction r) counts) df [].

(** [[sat_labels[i] for i in sat_counts.index]] paired with
    [sat_counts.values]: the bars of the chart, or the key on which the
    lookup raises. *)
Fixpoint bars (counts : list (Z * nat)) : Z + list (string * nat) :=
  match counts with
  | [] => inr []
  | (i, n) :: rest =>
      match sat_labels i with
      | None => inl i
      | Some label =>
          match bars rest with
          | inl key => inl key
          | inr drawn => inr ((label, n) :: drawn)
          end
      end
  end.

(** The row of metrics at the top of the dashboard. *)
Record metrics : Type := mkMetrics {
  m_total : Z;
  m_avg_sat : option Q;
  m_financial_yes : Z;
  m_academic_yes : Z
}.

Definition metrics_of (f : Insights.figures) : metrics :=
  {| m_total := Insights.total_responses f;
     m_avg_sat := Insights.avg_sat f;
     m_financial_yes := Insights.financial_yes f;
     m_academic_yes := Insights.academic_yes f |}.

(** What a run of the dashboard page comes to: the notice that there
    are no responses; the metrics and then a [KeyError] from the
    satisfaction chart, which ends the run before the other charts and
    the insights; or the whole page. *)
Inductive rendering : Type :=
  | no_responses_yet
  | key_error (shown : metrics) (key : Z)
  | page (f : Insights.figures) (satisfaction_bars : list (string * nat)).

Definition render (responses : list response) : rendering :=
  match Insights.dashboard responses with
  | None => no_responses_yet
  | Some f =>
      match bars (sat_counts responses) with
      | inl key => key_error (metrics_of f) key
      | inr drawn => page f drawn
      end
  end.

End Chart.

(** ** The admin page *)

Module Admin.

Definition set_admin (logged_in : bool) (a : Store.app) : Store.app :=
  {| Store.responses := Store.responses a;
     Store.admin_logged_in := logged_in;
     Store.sheet := Store.sheet a;
     Store.requests := Store.requests a;
     Store.shown := Store.shown a |}.

(** The widget pressed in a run of the page. *)
Inductive click : Type :=
  | nothing
  | login (password : string)
  | sync
  | logout
  | clear (checkbox : bool).

(** What the page itself shows, beside the notices of the store. *)
Inductive message : Type :=
  | login_successful     (* st.success: Login successful! *)
  | incorrect_password   (* st.error: Incorrect password *)
  | logged_in_as_admin.  (* st.success: Logged in as Admin *)

(** A run of the page ends normally or with the [ValueError] of
    [datetime.fromisoformat], which nothing catches. *)
Inductive run : Type :=
  | finished (a : Store.app) (messages : list message)
  | raised (a : Store.app) (messages : list message).

Definition state (r : run) : Store.app :=
  match r with
  | finished a _ | raised a _ => a
  end.

Section Page.

Variable USE_GOOGLE_SHEETS : bool.

(** The secret [admin_password], when there is one. *)
Variable admin_password : option string.

(** Whether [datetime.fromisoformat] accepts a string. *)
Variable fromisoformat_accepts : string -> bool.

(** [st.secrets.get("admin_password", "UTechAdmin2024")]. *)
Definition ADMIN_PASSWORD : string :=
  match admin_password with
  | Some password => password
  | None => "UTechAdmin2024"
  end.

(** The "Latest Response" metric parses the timestamp of the last
    response, when there is a response. *)
Definition latest_raises (a : Store.app) : bool :=
  match rev (Store.responses a) with
  | [] => false
  | last :: _ => negb (fromisoformat_accepts (timestamp last))
  end.

(** One run of the page.  A widget is drawn, and so can be pressed,
    only in its branch; a press of a widget that is not drawn counts
    as none. *)
Definition page (sv : Store.service) (c : click) (a : Store.app) : run :=
  if negb (Store.admin_logged_in a) then
    match c with
    | login password =>
        if String.eqb password ADMIN_PASSWORD
        then finished (set_admin true a) [login_successful]
        else finished a [incorrect_password]
    | nothing | sync | logout | clear _ => finished a []
    end
  else
    let greeted := [logged_in_as_admin] in
    match USE_GOOGLE_SHEETS, c with
    | true, sync => finished (Store.sync USE_GOOGLE_SHEETS sv a) greeted
    | _, _ =>
        if latest_raises a then raised a greeted
        else
          match c with
          | logout => finished (set_admin false a) greeted
          | clear checkbox => finished (Store.clear checkbox a) greeted
          | nothing | login _ | sync => finished a greeted
          end
    end.

End Page.

End Admin.

(** ** The clear section across runs

    Streamlit runs the script again after every gesture of the user.
    [st.button] returns [True] in the run that follows a click on that
    button and [False] in every other run.  A check box returns what
    the browser shows for it; one that the run before did not draw is
    new to the page and shows unchecked.  The check box of the clear
    section is created under [if st.button(...)], so a run draws it
    only when the button returns [True]. *)

Module Rerun.

(** What an admin who is logged in does between two runs. *)
Inductive gesture : Type :=
  | press_clear   (* a click on "Clear All Responses" *)
  | tick          (* a click on the check box, when the page shows it *)
  | other.        (* a gesture on another widget *)

(** The check box as the page shows it after a run: [None] when the
    run did not draw it. *)
Definition check_box : Type := option bool.

(** Lines 669 to 673 in a run in which [st.button] returns [button]
    and the browser holds [box].  After [st.rerun()] the script runs
    once more, the button returning [False]. *)
Definition clear_section (button : bool) (box : check_box) (a : Store.app)
  : Store.app * check_box :=
  if button then
    let checkbox := match box with Some ticked => ticked | None => false end in
    (Store.clear checkbox a, if checkbox then None else Some false)
  else (a, None).

(** A gesture and the run that follows it. *)
Definition step (s : Store.app * check_box) (g : gesture)
  : Store.app * check_box :=
  let (a, box) := s in
  match g with
  | press_clear => clear_section true box a
  | tick => clear_section false (option_map negb box) a
  | other => clear_section false box a
  end.

(** A visit to the page, which shows no check box at first. *)
Definition visit (gestures : list gesture) (a : Store.app)
  : Store.app * check_box :=
  fold_left step gestures (a, None).

End Rerun.

(** ** Consistency of the session with the sheet *)

Module Consistency.

(** A response that decoding its encoded row gives back. *)
Definition roundtrips (r : response) : Prop :=
  Codec.decodeRow (Codec.encodeRow r) = Some r.

(** The sheet holds the encoded rows of the session's responses. *)
Definition in_sync (a : Store.app) : Prop :=
  Store.sheet a = map Codec.encodeRow (Store.responses a).

End Consistency.

(** ** More sample data *)

Module Visit.

(** The widgets of a form filled in by a member who reports no
    financial challenge; the impact selection under it is a leftover. *)
Definition ann : Form.widgets :=
  Form.mkWidgets "2024-05-01T10:00:00.000000" "Ann" "" "President"
    "First year on Council" 4 "" "" "" "" "" "" ""
    "Basic understanding"
    ["Time management and workload balance";
     "Training and professional development"]
    "" "" "No" ["My personal life and well-being"] "rent" "Yes"
    ["My GPA and academic standing"] "exams"
    [] "" ""
    ["Skills training and workshops"; "Team building and Council unity"]
    "" "".

(** A response decoded from a row without a timestamp. *)
Definition undated : response :=
  Sample.answer 3 "No" "No" [].

(** A stand-in for [datetime.fromisoformat] in examples: like it, it
    rejects the empty string. *)
Definition rejects_empty (s : string) : bool :=
  negb (String.eqb s EmptyString).

(** An admin session whose last response has no timestamp. *)
Definition admin_session : Store.app :=
  Store.mkApp [Sample.filled; undated] true [] [] [].

(** An admin session with one response. *)
Definition signed_in : Store.app :=
  Store.mkApp [Sample.filled] true [] [] [].

(** One response that reports both challenges, with a satisfaction the
    chart has no label for. *)
Definition out_of_range : list response :=
  [Sample.answer 7 "Yes" "Yes" []].

(** Three responses with satisfaction 1, 1 and 2. *)
Definition thirds : list response :=
  map (fun sat => Sample.answer sat "No" "No" []) [1; 1; 2].

End Visit.

(** * Properties *)

(** ** [str] and [int] *)

Section IntStr.

Import Py.

Lemma lstrip_id c r : is_space c = false -> lstrip (String c r) = String c r.
Proof. simpl. now intros ->. Qed.

Lemma rstrip_id s : no_space s -> rstrip s = s.
Proof.
  induction s as [|c r IH]; intros H; simpl; trivial.
  rewrite IH by (intros x Hx; apply H; now right).
  destruct r; trivial.
  rewrite (H c) by now left. reflexivity.
Qed.

Lemma strip_id s : no_space s -> strip s = s.
Proof.
  intros H. unfold strip. destruct s as [|c r]; trivial.
  rewrite lstrip_id by (apply H; now left). now apply rstrip_id.
Qed.

Lemma no_space_uint d : no_space (NilEmpty.string_of_uint d).
Proof.
  induction d; intros c; simpl; try tauto;
    (intros [<- | H]; [reflexivity | now apply IHd]).
Qed.

(** Evaluates [digit] on a character that is given in full. *)
Ltac eval_digit :=
  match goal with
  | |- context [digit ?c] =>
      let v := eval vm_compute in (digit c) in
      change (digit c) with v; cbv iota beta
  end.

Lemma digits_acc d acc :
  digits (Z.pos acc) true (NilEmpty.string_of_uint d)
  = Some (Z.pos (Pos.of_uint_acc d acc)).
Proof.
  revert acc.
  induction d; intros acc;
    cbn [NilEmpty.string_of_uint digits Pos.of_uint_acc]; trivial;
    rewrite <- IHd; eval_digit; f_equal; lia.
Qed.

Lemma digits_zero d :
  digits 0 true (NilEmpty.string_of_uint d) = Some (Z.of_N (Pos.of_uint d)).
Proof.
  induction d; cbn [NilEmpty.string_of_uint digits Pos.of_uint]; trivial;
    eval_digit; solve [ apply IHd | apply (digits_acc d) ].
Qed.

Lemma digits_uint d :
  d <> Decimal.Nil ->
  digits 0 false (NilEmpty.string_of_uint d) = Some (Z.of_N (Pos.of_uint d)).
Proof.
  destruct d; intros H; try congruence; clear H;
    cbn [NilEmpty.string_of_uint digits Pos.of_uint]; eval_digit;
    solve [ apply digits_zero | apply (digits_acc d) ].
Qed.

Lemma digits_pos p :
  digits 0 false (NilEmpty.string_of_uint (Pos.to_uint p)) = Some (Z.pos p).
Proof.
  rewrite digits_uint by apply DecimalPos.Unsigned.to_uint_nonnil.
  now rewrite DecimalPos.Unsigned.of_to.
Qed.

Lemma uint_string_pos p :
  NilZero.string_of_uint (Pos.to_uint p)
  = NilEmpty.string_of_uint (Pos.to_uint p).
Proof.
  generalize (DecimalPos.Unsigned.to_uint_nonnil p).
  now destruct (Pos.to_uint p).
Qed.

Lemma uint_string_head p :
  exists c r, NilEmpty.string_of_uint (Pos.to_uint p) = String c r
              /\ digit c <> None.
Proof.
  generalize (DecimalPos.Unsigned.to_uint_nonnil p).
  destruct (Pos.to_uint p); intros H; try congruence;
    eexists; eexists; (split; [reflexivity | discriminate]).
Qed.

(** [int(str(n)) == n] for every integer. *)
Lemma int_str n : int (str n) = Some n.
Proof.
  destruct n as [|p|p]; trivial; unfold int, str; simpl Z.to_int;
    unfold NilZero.string_of_int; rewrite uint_string_pos.
  - rewrite strip_id by apply no_space_uint.
    destruct (uint_string_head p) as (c & r & E & Hc).
    rewrite E, <- E.
    assert (Ascii.eqb c "-" = false /\ Ascii.eqb c "+" = false) as [-> ->].
    { split; apply Ascii.eqb_neq; intros ->; now apply Hc. }
    apply digits_pos.
  - rewrite strip_id.
    + simpl. now rewrite digits_pos.
    + intros c [<- | H]; [reflexivity | now apply no_space_uint in H].
Qed.

Lemma str_truthy n : truthy (str n) = true.
Proof.
  destruct n as [|p|p]; trivial. unfold str; simpl.
  unfold NilZero.string_of_int. rewrite uint_string_pos.
  now destruct (uint_string_head p) as (c & r & -> & _).
Qed.

End IntStr.

(** ** [join] and [split] on the delimiter *)

Section JoinSplit.

Import Py.

Let sep : string := Codec.delimiter.

Lemma contains_cons c s :
  contains sep (String c s) = false ->
  String.prefix sep (String c s) = false /\ contains sep s = false.
Proof.
  intros H. cbn [contains] in H. apply orb_false_iff in H. exact H.
Qed.

Lemma prefix_empty s : String.prefix EmptyString s = true.
Proof. now destruct s. Qed.

Lemma prefix_sep_app c x rest :
  String.prefix sep (String c x) = false ->
  String.prefix sep (String c (x ++ sep ++ rest)%string) = false.
Proof.
  unfold sep, Codec.delimiter. cbn [String.prefix].
  destruct (ascii_dec "," c); trivial.
  destruct x as [|c' x]; cbn [append String.prefix].
  - intros _. now destruct (ascii_dec " " ",").
  - destruct (ascii_dec " " c'); trivial. now rewrite prefix_empty.
Qed.

(** A string without the delimiter is one piece. *)
Lemma split_one s : contains sep s = false -> split sep s = [s].
Proof.
  unfold split. induction s as [|c r IH]; intros H; trivial.
  apply contains_cons in H as [Hp Hr].
  cbn [split_from]. rewrite Hp, (IH Hr). reflexivity.
Qed.

(** The first piece ends at the first delimiter. *)
Lemma split_app x rest :
  contains sep x = false ->
  split sep (x ++ sep ++ rest)%string = x :: split sep rest.
Proof.
  unfold split. induction x as [|c x IH]; intros H.
  - unfold sep, Codec.delimiter.
    cbn [append split_from String.prefix String.length Nat.sub].
    destruct (ascii_dec "," ","); [|congruence].
    destruct (ascii_dec " " " "); [|congruence].
    now rewrite prefix_empty.
  - apply contains_cons in H as [Hp Hx].
    cbn [append split_from].
    rewrite (prefix_sep_app _ _ rest Hp), (IH Hx). reflexivity.
Qed.

Lemma split_join items :
  items <> [] -> Codec.delimiter_free items ->
  split sep (join sep items) = items.
Proof.
  induction items as [|x [|y rest] IH]; intros Hne Hfree.
  - congruence.
  - inversion_clear Hfree. now apply split_one.
  - inversion_clear Hfree.
    change (join sep (x :: y :: rest))
      with (x ++ sep ++ join sep (y :: rest))%string.
    rewrite split_app by assumption. f_equal. now apply IH.
Qed.

Lemma join_empty items : join sep items = EmptyString -> items = [] \/ items = [""].
Proof.
  destruct items as [|x [|y rest]]; intros H; auto.
  - right. simpl in H. now subst.
  - exfalso. change ((x ++ sep ++ join sep (y :: rest))%string = "") in H.
    destruct x; discriminate.
Qed.

(** Decoding the cell of an encoded multi-select. *)
Lemma decode_multi_join items :
  Codec.delimiter_free items -> items <> [""] ->
  Codec.decode_multi (join sep items) = items.
Proof.
  intros Hfree Hne. unfold Codec.decode_multi.
  destruct (join sep items) eqn:E; cbn [truthy].
  - apply join_empty in E as [-> | ->]; congruence.
  - rewrite <- E. apply split_join; trivial. intros ->. discriminate.
Qed.

End JoinSplit.

(** ** The row codec *)

Section CodecFacts.

Import Codec.

Lemma pad_full cells : (columns <= length cells)%nat -> pad cells = cells.
Proof.
  intros H. unfold pad.
  replace (columns - length cells)%nat with 0%nat by lia.
  apply app_nil_r.
Qed.

Lemma pad_length cells : (columns <= length (pad cells))%nat.
Proof. unfold pad. rewrite length_app, repeat_length. lia. Qed.

(** A cell that the row lacks reads as the empty string. *)
Lemma cell_absent cells i :
  (length cells <= i)%nat -> cell (pad cells) i = EmptyString.
Proof.
  intros H. unfold cell, pad. rewrite app_nth2 by exact H.
  destruct (Nat.lt_ge_cases (i - length cells) (columns - length cells)) as [L|L].
  - now rewrite nth_repeat_lt.
  - apply nth_overflow. now rewrite repeat_length.
Qed.

Lemma decode_satisfaction_str n : decode_satisfaction (Py.str n) = Some n.
Proof. unfold decode_satisfaction. now rewrite str_truthy, int_str. Qed.

(** What a row decodes to is fixed by its satisfaction cell: decoding
    fails exactly when [int] does on a non-empty cell. *)
Lemma decodeRow_some cells sat :
  decode_satisfaction (cell (pad cells) 5) = Some sat ->
  exists r, decodeRow cells = Some r /\ satisfaction r = sat.
Proof. intros H. unfold decodeRow. rewrite H. eexists. split; reflexivity. Qed.

Lemma decodeRow_none cells :
  decode_satisfaction (cell (pad cells) 5) = None -> decodeRow cells = None.
Proof. intros H. unfold decodeRow. now rewrite H. Qed.

(** The rows that do not decode are those whose satisfaction cell is
    not empty and not a number. *)
Lemma decodeRow_raises cells :
  decodeRow cells = None
  <-> cell (pad cells) 5 <> EmptyString /\ Py.int (cell (pad cells) 5) = None.
Proof.
  split.
  - intros H. destruct (decode_satisfaction (cell (pad cells) 5)) eqn:E.
    + apply decodeRow_some in E as (r & Hr & _). congruence.
    + unfold decode_satisfaction in E.
      destruct (cell (pad cells) 5); [discriminate|]. now split.
  - intros [Hc Hi]. apply decodeRow_none. unfold decode_satisfaction.
    now destruct (cell (pad cells) 5).
Qed.

End CodecFacts.

(** C1, as amended: decoding the encoded row of a response gives the
    response back, field for field and with every multi-valued field as
    the same ordered sequence, provided that no option of a multi-valued
    field contains the delimiter [", "] and that no multi-valued field
    is the one-element sequence holding the empty string. *)
Theorem decode_encode_roundtrip (r : response) :
  Forall Codec.delimiter_free (Codec.multi_valued r) ->
  Forall (fun options => options <> [EmptyString]) (Codec.multi_valued r) ->
  Codec.decodeRow (Codec.encodeRow r) = Some r.
Proof.
  intros Hfree Hne. destruct r.
  cbv [Codec.multi_valued support_gaps financial_impact academic_impact
       support_needs retreat_priorities] in Hfree, Hne.
  repeat match goal with
         | H : Forall _ (_ :: _) |- _ => inversion_clear H
         | H : Forall _ [] |- _ => clear H
         end.
  cbv [Codec.decodeRow Codec.encodeRow Codec.pad Codec.cell Codec.columns
       length Nat.sub repeat app nth
       timestamp name email position tenure satisfaction role_dislikes
       executive_concerns council_dynamics student_body_challenges
       achievements weaknesses skills_needed constitution_knowledge
       support_gaps support_details code_of_conduct financial_challenges
       financial_impact financial_details academic_challenges
       academic_impact academic_details support_needs retreat_goals
       training_topics retreat_priorities previous_retreats
       additional_comments].
  rewrite decode_satisfaction_str.
  rewrite !decode_multi_join by assumption.
  reflexivity.
Qed.

(** The round trip at a response as the form submits it. *)
Lemma decode_encode_roundtrip_witness :
  Codec.decodeRow (Codec.encodeRow Sample.filled) = Some Sample.filled.
Proof.
  apply decode_encode_roundtrip.
  - repeat constructor.
  - repeat constructor; discriminate.
Defined.

(** C1 as stated fails: a multi-valued field holding one empty option
    has no option that contains the delimiter, yet it is encoded as the
    empty cell and decoded as the empty sequence. *)
Lemma roundtrip_loses_empty_option :
  Forall Codec.delimiter_free (Codec.multi_valued Sample.empty_option)
  /\ Codec.decodeRow (Codec.encodeRow Sample.empty_option)
     <> Some Sample.empty_option.
Proof.
  split.
  - repeat constructor.
  - vm_compute. discriminate.
Qed.

(** C10: the entries of a row beyond the first 29 play no part in
    decoding it. *)
Theorem decodeRow_ignores_extra_cells (cells : row) :
  (29 < length cells)%nat ->
  Codec.decodeRow cells = Codec.decodeRow (firstn 29 cells).
Proof.
  intros H.
  assert (E : forall i, (i < 29)%nat ->
            Codec.cell (Codec.pad (firstn 29 cells)) i
            = Codec.cell (Codec.pad cells) i).
  { intros i Hi.
    rewrite !pad_full
      by (unfold Codec.columns; rewrite ?length_firstn; lia).
    unfold Codec.cell. rewrite nth_firstn.
    apply Nat.ltb_lt in Hi. now rewrite Hi. }
  unfold Codec.decodeRow.
  rewrite !E by lia. reflexivity.
Qed.

Lemma decodeRow_ignores_extra_cells_witness :
  (29 < length Sample.long_row)%nat
  /\ Codec.decodeRow Sample.long_row
     = Codec.decodeRow (firstn 29 Sample.long_row).
Proof.
  split.
  - vm_compute. lia.
  - apply decodeRow_ignores_extra_cells. vm_compute. lia.
Defined.

(** C2, as amended: a row whose satisfaction cell is absent or empty
    decodes to a response with satisfaction 3, and a row whose
    satisfaction cell [int] reads as [n] decodes to a response with
    satisfaction [n], which is one of 1..5 whenever [n] is. *)
Theorem decoded_satisfaction (cells : row) :
  let c := Codec.cell (Codec.pad cells) 5 in
  ((length cells <= 5)%nat \/ c = EmptyString ->
   exists r, Codec.decodeRow cells = Some r /\ satisfaction r = 3)
  /\ (forall n, c <> EmptyString -> Py.int c = Some n ->
      exists r, Codec.decodeRow cells = Some r /\ satisfaction r = n
                /\ (1 <= n <= 5 -> 1 <= satisfaction r <= 5)).
Proof.
  intros c. split.
  - intros H.
    assert (E : c = EmptyString)
      by (destruct H as [H|H]; [now apply cell_absent | exact H]).
    apply decodeRow_some. fold c. now rewrite E.
  - intros n Hc Hn.
    destruct (decodeRow_some cells n) as (r & Hr & Hs).
    { fold c. unfold Codec.decode_satisfaction.
      destruct c; [congruence | exact Hn]. }
    exists r. repeat split; trivial; rewrite Hs; tauto.
Qed.

Lemma decoded_satisfaction_witness :
  (exists r, Codec.decodeRow Sample.short_row = Some r /\ satisfaction r = 3)
  /\ (exists r, Codec.decodeRow (Codec.encodeRow Sample.filled) = Some r
                /\ satisfaction r = 4 /\ (1 <= 4 <= 5 -> 1 <= satisfaction r <= 5)).
Proof.
  split.
  - apply (proj1 (decoded_satisfaction Sample.short_row)).
    left. vm_compute. lia.
  - apply (proj2 (decoded_satisfaction (Codec.encodeRow Sample.filled)) 4).
    + vm_compute. discriminate.
    + vm_compute. reflexivity.
Defined.

(** C2 as stated fails: a satisfaction cell holding an integer outside
    1..5 is decoded to that integer. *)
Lemma decoded_satisfaction_out_of_range :
  exists r, Codec.decodeRow Sample.out_of_range_row = Some r
            /\ ~ (1 <= satisfaction r <= 5).
Proof.
  eexists. split; [vm_compute; reflexivity|]. simpl. lia.
Qed.

(** ** Submitting, loading and clearing *)

Section StoreFacts.

Import Store.

(** The responses a load returns depend on the sheet and the service
    only. *)
Lemma load_from_sheets_result use sv a :
  fst (load_from_sheets use sv a)
  = if use then
      match sv with
      | Responds =>
          match Codec.decodeRows (sheet a) with
          | Some rs => rs
          | None => []
          end
      | Unavailable _ | Raises _ => []
      end
    else [].
Proof.
  unfold load_from_sheets.
  destruct use; trivial. destruct sv; simpl; trivial.
  destruct (sheet a) as [|cells rest] eqn:E; trivial.
  now destruct (Codec.decodeRows (cells :: rest)).
Qed.

(** A load sends at most a read request: the sheet and the session are
    as before. *)
Lemma load_from_sheets_frame use sv a :
  let a' := snd (load_from_sheets use sv a) in
  sheet a' = sheet a /\ responses a' = responses a
  /\ admin_logged_in a' = admin_logged_in a.
Proof.
  unfold load_from_sheets.
  destruct use; [|now repeat split].
  destruct sv; try now repeat split.
  cbn [negb get_sheets_service].
  destruct (sheet (send values_get a)) as [|cells rest];
    [now repeat split|].
  destruct (Codec.decodeRows (cells :: rest)); now repeat split.
Qed.

(** One row that does not decode is enough for a load to return
    nothing. *)
Lemma decodeRows_corrupt values cells :
  In cells values -> Codec.decodeRow cells = None ->
  Codec.decodeRows values = None.
Proof.
  induction values as [|c rest IH]; intros Hin Hc; [easy|]. simpl.
  destruct Hin as [->|Hin]; [now rewrite Hc|].
  destruct (Codec.decodeRow c); trivial. now rewrite IH.
Qed.

Lemma load_from_sheets_corrupt sv a cells :
  In cells (sheet a) -> Codec.decodeRow cells = None ->
  fst (load_from_sheets true sv a) = [].
Proof.
  intros Hin Hc. rewrite load_from_sheets_result.
  destruct sv; trivial. now rewrite (decodeRows_corrupt _ _ Hin Hc).
Qed.

Lemma refresh_responses sv a :
  responses (refresh true sv a) = fst (load_from_sheets true sv a).
Proof.
  unfold refresh. now destruct (load_from_sheets true sv a).
Qed.

End StoreFacts.

(** C3, at a failing input: a sheet whose second row has a satisfaction
    cell that is not a number.  The first row decodes on its own, the
    second makes [int] raise, and the load returns no response at all. *)
Theorem corrupt_row_empties_load :
  Codec.decodeRows [Codec.encodeRow Sample.filled] = Some [Sample.filled]
  /\ Codec.decodeRow Sample.corrupt_row = None
  /\ Store.load_from_sheets true Store.Responds
       (Scenario.session [] Scenario.corrupted_sheet)
     = ([], Store.mkApp [] false Scenario.corrupted_sheet [Store.values_get]
              [Store.load_error (Store.ValueError "n/a")]).
Proof. repeat split; vm_compute; reflexivity. Qed.

(** C4: with the sheet in use and the append to it failing, submitting
    a response still appends it to the session's responses and leaves
    the sheet as it was; the page shows the error of the failed save,
    then the warning that the response was saved locally only, then the
    confirmation that it was recorded. *)
Theorem submit_survives_failed_save
  (sv : Store.service) (r : response) (a : Store.app) :
  sv <> Store.Responds ->
  let a' := Store.submit true sv r a in
  Store.responses a' = Store.responses a ++ [r]
  /\ In r (Store.responses a')
  /\ Store.sheet a' = Store.sheet a
  /\ (exists failure,
        Store.level_of failure = Store.error
        /\ Store.shown a'
           = Store.shown a ++ [failure; Store.saved_locally_only; Store.recorded])
  /\ Store.level_of Store.saved_locally_only = Store.warning
  /\ Store.level_of Store.recorded = Store.success.
Proof.
  intros Hsv. destruct sv as [|e|e]; [congruence| |];
    cbv [Store.submit Store.save_to_sheets Store.get_sheets_service negb
         Store.show Store.send Store.set_sheet Store.set_responses
         Store.responses Store.sheet Store.shown Store.requests
         Store.admin_logged_in];
    (repeat split; trivial;
     [ apply in_or_app; right; now left
     | eexists; split; [|rewrite <- !app_assoc; reflexivity]; reflexivity ]).
Qed.

Lemma submit_survives_failed_save_witness :
  let a' := Store.submit true (Store.Raises "HttpError 503") Sample.filled
              (Scenario.session [] []) in
  Store.responses a' = [] ++ [Sample.filled]
  /\ In Sample.filled (Store.responses a')
  /\ Store.sheet a' = []
  /\ (exists failure,
        Store.level_of failure = Store.error
        /\ Store.shown a'
           = [] ++ [failure; Store.saved_locally_only; Store.recorded])
  /\ Store.level_of Store.saved_locally_only = Store.warning
  /\ Store.level_of Store.recorded = Store.success.
Proof.
  apply (submit_survives_failed_save (Store.Raises "HttpError 503")
           Sample.filled (Scenario.session [] [])).
  discriminate.
Defined.



Section ClearFacts.

Import Rerun.

(** The check box never reaches a press of the button ticked, so a
    run of the clear section leaves the session as it is. *)
Lemma step_unticked s g :
  snd s <> Some true ->
  fst (step s g) = fst s /\ snd (step s g) <> Some true.
Proof.
  destruct s as [a box]. cbn [fst snd]. intros Hbox.
  destruct g; cbn [step clear_section option_map].
  - destruct box as [[|]|]; [congruence | |]; cbn [Store.clear];
      (split; [reflexivity | discriminate]).
  - split; [reflexivity | discriminate].
  - split; [reflexivity | discriminate].
Qed.

Lemma visit_unticked gestures s :
  snd s <> Some true ->
  fst (fold_left step gestures s) = fst s.
Proof.
  revert s. induction gestures as [|g gestures IH]; intros s Hs; [reflexivity|].
  cbn [fold_left]. destruct (step_unticked s g Hs) as [E Hs'].
  rewrite IH by exact Hs'. exact E.
Qed.

End ClearFacts.

(** C9: the assignment under the check box would leave the session
    with no responses and touch nothing else, neither the sheet nor the
    requests sent nor the login; but no visit to the admin page reaches
    it.  The check box is drawn only in a run in which the button
    returns [True], and a tick of it starts a run in which the button
    returns [False]: whatever the admin presses and ticks, the session
    is as it was, and the response of a session that holds one is
    still there after a press, a tick and a press. *)
Theorem clear_never_empties (gestures : list Rerun.gesture) (a : Store.app) :
  fst (Rerun.visit gestures a) = a
  /\ Store.responses
       (fst (Rerun.visit [Rerun.press_clear; Rerun.tick; Rerun.press_clear]
               Visit.signed_in))
     = [Sample.filled]
  /\ Store.responses (Store.clear true a) = []
  /\ Store.sheet (Store.clear true a) = Store.sheet a
  /\ Store.requests (Store.clear true a) = Store.requests a
  /\ Store.admin_logged_in (Store.clear true a) = Store.admin_logged_in a
  /\ Store.shown (Store.clear true a) = Store.shown a ++ [Store.cleared]
  /\ Store.clear false a = a.
Proof.
  split; [|repeat split].
  unfold Rerun.visit. now rewrite visit_unticked.
Qed.

(** ** The dashboard's figures *)

Section InsightFacts.

Import Insights.

Lemma total_from xs a : fold_left Z.add xs a = a + fold_right Z.add 0 xs.
Proof.
  revert a. induction xs as [|x xs IH]; intros a; simpl; [lia|].
  rewrite IH. lia.
Qed.

Lemma total_sum df : total (map satisfaction df) = Stated.satisfaction_sum df.
Proof. unfold total. now rewrite total_from. Qed.

Lemma Qltb_lt x y : Qltb x y = true <-> (x < y)%Q.
Proof.
  unfold Qltb. rewrite negb_true_iff. split; intros H.
  - apply Qnot_le_lt. intros L. apply Qle_bool_iff in L. congruence.
  - destruct (Qle_bool y x) eqn:E; trivial.
    apply Qle_bool_iff in E. now apply Qlt_not_le in H.
Qed.

(** The mean of a non-empty series against a threshold, in integers. *)
Lemma mean_lt_iff (xs : list Z) (t : Z) :
  xs <> [] ->
  exists m, mean xs = Some m
            /\ (m == inject_Z (total xs) / inject_Z (Z.of_nat (length xs)))%Q
            /\ (Qltb m (inject_Z t) = true
                <-> total xs < t * Z.of_nat (length xs)).
Proof.
  destruct xs as [|x xs]; [congruence|intros _].
  eexists. split; [reflexivity|]. split.
  - rewrite Qmake_Qdiv.
    replace (Z.pos (Pos.of_nat (length (x :: xs))))
      with (Z.of_nat (length (x :: xs))) by (simpl length; lia).
    reflexivity.
  - rewrite Qltb_lt. unfold Qlt. cbn [Qnum Qden inject_Z].
    replace (Z.pos (Pos.of_nat (length (x :: xs))))
      with (Z.of_nat (length (x :: xs))) by (simpl length; lia).
    lia.
Qed.

(** [count > n * 0.3] and [count / n > 0.3], in integers. *)
Lemma over_threshold_iff (count n : Z) :
  Qltb (inject_Z n * (3 # 10)) (inject_Z count) = true <-> 3 * n < 10 * count.
Proof.
  rewrite Qltb_lt. unfold Qlt, Qmult. cbn [Qnum Qden inject_Z]. lia.
Qed.

Lemma fraction_over_iff (count n : Z) :
  0 < n -> ((3 # 10) < inject_Z count / inject_Z n)%Q <-> 3 * n < 10 * count.
Proof.
  intros Hn. destruct n as [|p|p]; try lia.
  unfold Qlt, Qdiv, Qmult, Qinv. cbn [Qnum Qden inject_Z]. lia.
Qed.

Lemma in_when b f g : In g (when b f) <-> b = true /\ g = f.
Proof.
  destruct b; simpl; split; try tauto; try (intros [H _]; discriminate).
  - intros [H|[]]. now split.
  - intros [_ ->]. now left.
Qed.

End InsightFacts.

Section Findings.

Import Insights.

(** The findings of a report, one by one. *)
Lemma in_findings df g :
  In g (findings (analyse df)) <->
  (mean (map satisfaction df) <> None
   /\ total (map satisfaction df) < 3 * Z.of_nat (length df)
   /\ g = low_satisfaction)
  \/ (3 * Z.of_nat (length df) < 10 * count_yes financial_challenges df
      /\ g = financial_support_needed)
  \/ (3 * Z.of_nat (length df) < 10 * count_yes academic_challenges df
      /\ g = academic_balance_concerns)
  \/ (collect retreat_priorities df <> []
      /\ g = retreat_focus_areas
               (map fst (head 3 (value_counts (collect retreat_priorities df))))).
Proof.
  cbn [findings analyse]. rewrite !in_app_iff, !in_when, !over_threshold_iff.
  assert (L : (match mean (map satisfaction df) with
               | Some m => Qltb m 3
               | None => false
               end = true)
              <-> mean (map satisfaction df) <> None
                  /\ total (map satisfaction df) < 3 * Z.of_nat (length df)).
  { destruct (map satisfaction df) as [|x xs] eqn:E.
    - simpl. split; [discriminate | intros [H _]; congruence].
    - destruct (mean_lt_iff (x :: xs) 3) as (m & -> & _ & H); [discriminate|].
      change (inject_Z 3) with 3%Q in H. rewrite H.
      rewrite <- E at 2. rewrite length_map.
      split; [intros ? | tauto]. split; [discriminate | assumption]. }
  rewrite L.
  assert (F : In g match collect retreat_priorities df with
                   | [] => []
                   | _ :: _ =>
                       [retreat_focus_areas
                          (map fst (head 3 (value_counts
                                              (collect retreat_priorities df))))]
                   end
              <-> collect retreat_priorities df <> []
                  /\ g = retreat_focus_areas
                           (map fst (head 3 (value_counts
                                               (collect retreat_priorities df))))).
  { destruct (collect retreat_priorities df); simpl.
    - split; [tauto | intros [H _]; congruence].
    - split; [intros [<-|[]]; split; [discriminate | reflexivity]
             | intros [_ ->]; now left]. }
  rewrite F. tauto.
Qed.

Lemma count_yes_length column df :
  count_yes column df
  = Z.of_nat (length (filter (Stated.reports_yes column) df)).
Proof. reflexivity. Qed.

End Findings.

(** The findings among the figures of a non-empty collection, against
    the aggregates of the specification; whether a run shows them is
    not said here. *)
Lemma thresholds_of_analyse (df : list response) :
  df <> [] ->
  let found g := In g (Insights.findings (Insights.analyse df)) in
  let yes column := Stated.proportion df (Stated.reports_yes column) in
  (found Insights.low_satisfaction <-> (Stated.meanSatisfaction df < 3)%Q)
  /\ (found Insights.financial_support_needed
      <-> (3 # 10 < yes financial_challenges)%Q)
  /\ (found Insights.academic_balance_concerns
      <-> (3 # 10 < yes academic_challenges)%Q)
  /\ (length df = 10%nat ->
      length (filter (Stated.reports_yes financial_challenges) df) = 4%nat ->
      found Insights.financial_support_needed)
  /\ (length df = 10%nat ->
      length (filter (Stated.reports_yes financial_challenges) df) = 2%nat ->
      ~ found Insights.financial_support_needed).
Proof.
  intros Hne found yes.
  assert (Hn : 0 < Z.of_nat (length df)) by (destruct df; [congruence | simpl; lia]).
  assert (Hfin : forall column g,
             (g = Insights.financial_support_needed
              /\ column = financial_challenges
              \/ g = Insights.academic_balance_concerns
                 /\ column = academic_challenges) ->
             found g <-> (3 # 10 < yes column)%Q).
  { intros column g Hg. unfold found, yes, Stated.proportion.
    rewrite in_findings, fraction_over_iff by exact Hn.
    rewrite <- count_yes_length.
    destruct Hg as [[-> ->] | [-> ->]];
      (split; [intros [H|[H|[H|H]]];
                 try (destruct H as (_ & _ & H); discriminate);
                 try (destruct H as (_ & H); discriminate);
                 tauto
              | intros H; auto ]). }
  repeat split.
  - unfold found. rewrite in_findings.
    intros [(_ & H & _)|[H|[H|H]]]; try (destruct H as (_ & H); discriminate).
    unfold Stated.meanSatisfaction, Qlt, Qdiv, Qmult, Qinv.
    rewrite <- total_sum.
    destruct (Z.of_nat (length df)) as [|p|p] eqn:E; try lia.
    cbn [Qnum Qden inject_Z]. lia.
  - unfold found. rewrite in_findings. intros H. left. repeat split.
    + destruct df; [congruence | discriminate].
    + revert H. unfold Stated.meanSatisfaction, Qlt, Qdiv, Qmult, Qinv.
      rewrite <- total_sum.
      destruct (Z.of_nat (length df)) as [|p|p] eqn:E; try lia.
      cbn [Qnum Qden inject_Z]. lia.
  - apply Hfin; auto.
  - apply Hfin; auto.
  - apply Hfin; auto.
  - apply Hfin; auto.
  - intros H10 H4. unfold found. rewrite in_findings. right. left.
    split; trivial. rewrite count_yes_length, H10, H4. lia.
  - intros H10 H2. unfold found. rewrite in_findings.
    rewrite count_yes_length, H10, H2.
    intros [H|[H|[H|H]]];
      try (destruct H as (_ & _ & H); discriminate);
      try (destruct H as (_ & H); discriminate).
    destruct H as [H _]. lia.
Qed.

(** ** Counting and ranking categories *)

Section Ranking.

Import Insights.

Lemma collect_from (column : response -> list string) df acc :
  fold_left (fun all r => all ++ column r) df acc = acc ++ flat_map column df.
Proof.
  revert acc. induction df as [|r df IH]; intros acc; simpl.
  - now rewrite app_nil_r.
  - now rewrite IH, app_assoc.
Qed.

(** The loop that gathers a column is the concatenation of its lists. *)
Lemma collect_selected (column : response -> list string) df :
  collect column df = Stated.selected column df.
Proof. apply (collect_from column df []). Qed.

Lemma tally_snoc xs x : tally (xs ++ [x]) = bump x (tally xs).
Proof. unfold tally. now rewrite fold_left_app. Qed.

(** *** One more label *)

Lemma bump_new x counts :
  ~ In x (map fst counts) -> bump x counts = counts ++ [(x, 1%nat)].
Proof.
  induction counts as [|[l n] rest IH]; intros H; simpl; trivial.
  destruct (String.eqb_spec x l) as [->|Hxl].
  - exfalso. apply H. now left.
  - rewrite IH; trivial. intros Hin. apply H. now right.
Qed.

Lemma bump_keys x counts :
  In x (map fst counts) -> map fst (bump x counts) = map fst counts.
Proof.
  induction counts as [|[l n] rest IH]; intros H; simpl; [easy|].
  destruct (String.eqb_spec x l) as [->|Hxl]; simpl; trivial.
  f_equal. apply IH. destruct H as [H|H]; [simpl in H; congruence | exact H].
Qed.

Lemma bump_other x counts k n :
  k <> x -> In (k, n) (bump x counts) <-> In (k, n) counts.
Proof.
  intros Hk. induction counts as [|[l m] rest IH]; simpl.
  - split; [intros [H|[]]; congruence | tauto].
  - destruct (String.eqb_spec x l) as [->|Hxl]; simpl.
    + split; (intros [H|H]; [left; congruence | now right]).
    + now rewrite IH.
Qed.

Lemma bump_same x counts n :
  NoDup (map fst counts) -> In x (map fst counts) ->
  In (x, n) (bump x counts) <-> exists m, n = S m /\ In (x, m) counts.
Proof.
  induction counts as [|[l m] rest IH]; intros Hnd Hin; simpl; [easy|].
  inversion_clear Hnd as [|? ? Hl Hrest].
  assert (Hfst : forall k j, In (k, j) rest -> In k (map fst rest))
    by (intros k j H; now apply (in_map fst) in H).
  destruct (String.eqb_spec x l) as [->|Hxl]; simpl.
  - split.
    + intros [H|H]; [exists m; split; [congruence | now left]|].
      exfalso. apply Hl. now apply (Hfst l n).
    + intros (j & -> & [H|H]); [left; congruence|].
      exfalso. apply Hl. now apply (Hfst l j).
  - destruct Hin as [Hin|Hin]; [simpl in Hin; congruence|].
    rewrite (IH Hrest Hin). split.
    + intros [H|(j & -> & H)]; [congruence | exists j; auto].
    + intros (j & -> & [H|H]); [congruence | right; exists j; auto].
Qed.

(** *** Where a label is first seen *)

Lemma first_seen_app k xs ys :
  In k xs -> Stated.first_seen k (xs ++ ys) = Stated.first_seen k xs.
Proof.
  induction xs as [|x xs IH]; intros H; simpl; [easy|].
  destruct (String.eqb_spec k x); trivial.
  f_equal. apply IH. destruct H; congruence.
Qed.

Lemma first_seen_new k xs :
  ~ In k xs -> Stated.first_seen k (xs ++ [k]) = length xs.
Proof.
  induction xs as [|x xs IH]; intros H; simpl.
  - now rewrite String.eqb_refl.
  - destruct (String.eqb_spec k x) as [->|_]; [exfalso; apply H; now left|].
    f_equal. apply IH. intros Hin. apply H. now right.
Qed.

Lemma first_seen_lt k xs : In k xs -> (Stated.first_seen k xs < length xs)%nat.
Proof.
  induction xs as [|x xs IH]; intros H; simpl; [easy|].
  destruct (String.eqb_spec k x); [lia|].
  apply -> Nat.succ_lt_mono. apply IH. destruct H; congruence.
Qed.

(** *** Sorted lists *)

Lemma sorted_weaken {A} (R R' : A -> A -> Prop) l :
  (forall a b, In a l -> In b l -> R a b -> R' a b) ->
  StronglySorted R l -> StronglySorted R' l.
Proof.
  induction l as [|a l IH]; intros H S; [constructor|].
  inversion_clear S as [|? ? Sl Fa]. constructor.
  - apply IH; trivial. intros x y Hx Hy. apply H; now right.
  - rewrite Forall_forall in *. intros b Hb.
    apply H; [now left | now right | now apply Fa].
Qed.

Lemma sorted_snoc {A} (R : A -> A -> Prop) l x :
  StronglySorted R l -> Forall (fun a => R a x) l ->
  StronglySorted R (l ++ [x]).
Proof.
  induction 1 as [|a l Sl IH Fa]; intros F; simpl.
  - repeat constructor.
  - inversion_clear F as [|? ? Ra Fl]. constructor; [now apply IH|].
    apply Forall_app. split; [exact Fa | now constructor].
Qed.

Lemma sorted_map {A B} (f : A -> B) (R : B -> B -> Prop) l :
  StronglySorted R (map f l) -> StronglySorted (fun a b => R (f a) (f b)) l.
Proof.
  induction l as [|a l IH]; intros S; [constructor|].
  simpl in S. inversion_clear S as [|? ? Sl Fa].
  constructor; [now apply IH|].
  rewrite Forall_forall in *. intros b Hb. apply Fa. now apply in_map.
Qed.


(** *** The tally *)

Lemma seen_order_app xs ys keys :
  (forall k, In k keys -> In k xs) ->
  StronglySorted
    (fun a b => (Stated.first_seen a xs < Stated.first_seen b xs)%nat) keys ->
  StronglySorted
    (fun a b => (Stated.first_seen a (xs ++ ys)
                 < Stated.first_seen b (xs ++ ys))%nat) keys.
Proof.
  intros Hkeys. apply sorted_weaken. intros a b Ha Hb H.
  now rewrite !first_seen_app by now apply Hkeys.
Qed.

(** The tally has one entry for each label of the input, holding the
    number of its occurrences, and the entries are in the order in
    which the labels are first seen. *)
Lemma tally_spec xs :
  NoDup (map fst (tally xs))
  /\ (forall k n, In (k, n) (tally xs)
                  <-> In k xs /\ n = count_occ string_dec xs k)
  /\ StronglySorted
       (fun a b => (Stated.first_seen a xs < Stated.first_seen b xs)%nat)
       (map fst (tally xs)).
Proof.
  induction xs as [|x xs (Hnd & Hin & Hord)] using rev_ind.
  - change (tally []) with (@nil (string * nat)). simpl.
    repeat split; try constructor; tauto.
  - assert (Hkeys : forall k, In k (map fst (tally xs)) <-> In k xs).
    { intros k. rewrite in_map_iff. split.
      - intros ([k' n] & <- & H). now apply Hin in H.
      - intros H. exists (k, count_occ string_dec xs k). split; trivial.
        apply Hin. now split. }
    assert (Hcount : forall k,
               count_occ string_dec (xs ++ [x]) k
               = (count_occ string_dec xs k + if string_dec x k then 1 else 0)%nat).
    { intros k. rewrite count_occ_app. simpl. now destruct (string_dec x k). }
    rewrite tally_snoc.
    destruct (in_dec string_dec x xs) as [Hx|Hx].
    + (* a label seen before *)
      assert (Hxk : In x (map fst (tally xs))) by now apply Hkeys.
      rewrite (bump_keys _ _ Hxk). repeat split.
      * exact Hnd.
      * destruct (string_dec k x) as [->|Hk].
        -- apply in_or_app. now left.
        -- apply in_or_app. left. rewrite (bump_other x _ k n Hk) in H.
           now apply Hin in H.
      * rewrite Hcount. destruct (string_dec x k) as [<-|Hk].
        -- rewrite (bump_same x _ n Hnd Hxk) in H.
           destruct H as (m & -> & H).
           apply Hin in H as [_ ->]. lia.
        -- rewrite bump_other in H by congruence.
           apply Hin in H as [_ ->]. lia.
      * intros [Hk ->]. rewrite Hcount.
        destruct (string_dec x k) as [<-|Hxk'].
        -- rewrite (bump_same x _ _ Hnd Hxk).
           exists (count_occ string_dec xs x). split; [lia|].
           apply Hin. now split.
        -- rewrite bump_other by congruence. apply Hin. split; [|lia].
           apply in_app_or in Hk as [Hk|[Hk|[]]]; congruence.
      * apply seen_order_app; [apply Hkeys | exact Hord].
    + (* a new label *)
      assert (Hxk : ~ In x (map fst (tally xs))) by now rewrite Hkeys.
      rewrite (bump_new _ _ Hxk), map_app. simpl map. repeat split.
      * apply (Permutation_NoDup (Permutation_cons_append _ x)).
        now constructor.
      * apply in_app_or in H as [H|[H|[]]].
        -- apply Hin in H as [H _]. apply in_or_app. now left.
        -- inversion H; subst. apply in_or_app. right. now left.
      * rewrite Hcount. apply in_app_or in H as [H|[H|[]]].
        -- apply Hin in H as [Hk ->].
           destruct (string_dec x k); [congruence | lia].
        -- inversion H; subst.
           apply (count_occ_not_In string_dec) in Hx. rewrite Hx.
           destruct (string_dec k k); [lia | congruence].
      * intros [Hk ->]. rewrite Hcount. apply in_or_app.
        destruct (string_dec x k) as [<-|Hxk'].
        -- right. left.
           apply (count_occ_not_In string_dec) in Hx. now rewrite Hx.
        -- left. apply Hin. split; [|lia].
           apply in_app_or in Hk as [Hk|[Hk|[]]]; congruence.
      * apply sorted_snoc.
        -- apply seen_order_app; [apply Hkeys | exact Hord].
        -- apply Forall_forall. intros a Ha. apply Hkeys in Ha.
           rewrite (first_seen_app _ _ _ Ha), (first_seen_new _ _ Hx).
           now apply first_seen_lt.
Qed.

(** *** The sort *)

Lemma insert_perm p sorted : Permutation (insert p sorted) (p :: sorted).
Proof.
  induction sorted as [|q rest IH]; simpl; [reflexivity|].
  destruct (snd p <? snd q)%nat; [|reflexivity].
  rewrite IH. apply perm_swap.
Qed.

Lemma sort_counts_perm counts : Permutation (sort_counts counts) counts.
Proof.
  induction counts as [|p rest IH]; simpl; [reflexivity|].
  now rewrite insert_perm, IH.
Qed.

(** An entry whose label was seen before the labels of a ranked list
    is put at its rank. *)
Lemma insert_ranked input p sorted :
  StronglySorted (Stated.ranks_before input) sorted ->
  Forall (fun q => (Stated.first_seen (fst p) input
                    < Stated.first_seen (fst q) input)%nat) sorted ->
  StronglySorted (Stated.ranks_before input) (insert p sorted).
Proof.
  induction 1 as [|q rest Srest IH Fq]; intros Fp; simpl.
  - repeat constructor.
  - inversion_clear Fp as [|? ? Hpq Fprest].
    destruct (Nat.ltb_spec (snd p) (snd q)) as [Hlt|Hge].
    + constructor; [now apply IH|].
      apply (Permutation_Forall (Permutation_sym (insert_perm p rest))).
      constructor; [now left | exact Fq].
    + constructor; [now constructor|].
      constructor.
      * unfold Stated.ranks_before. lia.
      * rewrite Forall_forall in *. intros r Hr.
        specialize (Fq r Hr). specialize (Fprest r Hr).
        unfold Stated.ranks_before in *. lia.
Qed.

Lemma sort_counts_ranked input counts :
  StronglySorted
    (fun p q => (Stated.first_seen (fst p) input
                 < Stated.first_seen (fst q) input)%nat) counts ->
  StronglySorted (Stated.ranks_before input) (sort_counts counts).
Proof.
  induction 1 as [|p rest Srest IH Fp]; simpl; [constructor|].
  apply insert_ranked; trivial.
  apply (Permutation_Forall (Permutation_sym (sort_counts_perm rest))).
  exact Fp.
Qed.

(** *** [value_counts] *)

Lemma value_counts_spec xs :
  NoDup (map fst (value_counts xs))
  /\ (forall k n, In (k, n) (value_counts xs)
                  <-> In k xs /\ n = count_occ string_dec xs k)
  /\ StronglySorted (Stated.ranks_before xs) (value_counts xs).
Proof.
  destruct (tally_spec xs) as (Hnd & Hin & Hord).
  pose proof (sort_counts_perm (tally xs)) as P. unfold value_counts.
  split; [|split].
  - apply (Permutation_NoDup (Permutation_map fst (Permutation_sym P)) Hnd).
  - intros k n. rewrite <- Hin. split; apply Permutation_in; trivial.
    now apply Permutation_sym.
  - apply sort_counts_ranked. now apply sorted_map in Hord.
Qed.

End Ranking.

(** ** Binary64 against exact arithmetic

    On collections of the sizes a council has, the comparisons of the
    dashboard come out in binary64 as they do in exact arithmetic. *)

Section Binary64Facts.

Import Binary64.

Lemma count_pairs_in bound c n :
  (c <= n <= bound)%nat -> In (c, n) (count_pairs bound).
Proof.
  intros H. unfold count_pairs. apply in_flat_map. exists n. split.
  - apply in_seq. lia.
  - apply (in_map (fun c => (c, n))), in_seq. lia.
Qed.

Lemma sum_pairs_in bound s n :
  (1 <= n <= bound)%nat -> (s <= 5 * n)%nat -> In (s, n) (sum_pairs bound).
Proof.
  intros H Hs. unfold sum_pairs. apply in_flat_map. exists n. split.
  - apply in_seq. lia.
  - apply (in_map (fun s => (s, n))), in_seq. lia.
Qed.

(** X28: for up to 128 responses, the test [count > len(df) * 0.3]
    gives in binary64 the answer that exact arithmetic gives. *)
Lemma over_30_percent_exact (c n : nat) :
  (c <= n <= 128)%nat ->
  over_30_percent (Z.of_nat c) (Z.of_nat n)
  = Insights.Qltb (inject_Z (Z.of_nat n) * (3 # 10)) (inject_Z (Z.of_nat c)).
Proof.
  intros H.
  assert (A : forallb agree_on_count (count_pairs 128) = true)
    by (vm_compute; reflexivity).
  rewrite forallb_forall in A.
  apply (Bool.eqb_prop _ _ (A (c, n) (count_pairs_in 128 c n H))).
Qed.

(** X29: for up to 64 responses whose satisfactions add up to at most
    five times their number, the test [avg_sat < 3] gives in binary64
    the answer that exact arithmetic gives. *)
Lemma mean_below_3_exact (s n : nat) :
  (1 <= n <= 64)%nat -> (s <= 5 * n)%nat ->
  mean_below_3 (Z.of_nat s) (Z.of_nat n)
  = Insights.Qltb (Z.of_nat s # Pos.of_nat n) 3.
Proof.
  intros H Hs.
  assert (A : forallb agree_on_mean (sum_pairs 64) = true)
    by (vm_compute; reflexivity).
  rewrite forallb_forall in A.
  apply (Bool.eqb_prop _ _ (A (s, n) (sum_pairs_in 64 s n H Hs))).
Qed.

(** The examples of the dashboard's thresholds, in binary64: 4 of 10
    is over 30 percent, 3 of 10 and 2 of 10 are not, and the mean of
    5, 4, 3, 2, 1 is the double 3.0. *)
Lemma binary64_examples :
  over_30_percent 4 10 = true
  /\ over_30_percent 3 10 = false
  /\ over_30_percent 2 10 = false
  /\ SFdiv prec emax (of_int (5 + 4 + 3 + 2 + 1)) (of_int 5) = of_int 3
  /\ mean_below_3 (5 + 4 + 3 + 2 + 1) 5 = false.
Proof. repeat split; vm_compute; reflexivity. Qed.

End Binary64Facts.

(** * Further properties of the program *)

(** ** Decoding and encoding again *)

Section Recoding.

Import Py.

Local Abbreviation sep := Codec.delimiter.

Lemma split_from_nonempty skip s : split_from sep skip s <> [].
Proof.
  revert skip. induction s as [|c r IH]; intros skip; [discriminate|].
  cbn [split_from]. destruct skip; [|apply IH].
  destruct (String.prefix sep (String c r)); [discriminate|].
  now destruct (split_from sep 0 r).
Qed.

Lemma join_cons_char c h t :
  join sep (String c h :: t) = String c (join sep (h :: t)).
Proof. now destruct t. Qed.

(** How [split] treats the first character. *)
Lemma split_step c s :
  (exists s', c = ","%char /\ s = String " " s'
              /\ split sep (String c s) = EmptyString :: split sep s')
  \/ (exists h t, split sep s = h :: t
                  /\ split sep (String c s) = String c h :: t
                  /\ String.prefix sep (String c s) = false).
Proof.
  unfold split, Codec.delimiter.
  cbn [split_from String.prefix String.length Nat.sub].
  destruct (ascii_dec "," c) as [<-|Hc].
  - destruct s as [|d s'].
    + right. exists EmptyString, []. now repeat split.
    + cbn [String.prefix]. destruct (ascii_dec " " d) as [<-|Hd].
      * left. exists s'. rewrite prefix_empty. now repeat split.
      * right.
        destruct (split_from ", " 0 (String d s')) as [|h t] eqn:E;
          [now apply split_from_nonempty in E|].
        exists h, t. now repeat split.
  - right.
    destruct (split_from ", " 0 s) as [|h t] eqn:E;
      [now apply split_from_nonempty in E|].
    exists h, t. now repeat split.
Qed.

(** Joining the pieces of a string gives the string back; no piece
    contains the delimiter. *)
Lemma split_pieces s :
  (join sep (split sep s) = s /\ Codec.delimiter_free (split sep s))
  /\ forall c, join sep (split sep (String c s)) = String c s
               /\ Codec.delimiter_free (split sep (String c s)).
Proof.
  induction s as [|d r [[Jr Fr] IH]].
  - split; [split; [reflexivity | now repeat constructor]|].
    intros c. destruct (split_step c EmptyString)
      as [(s' & _ & E & _)|(h & t & E & -> & Hp)]; [discriminate|].
    inversion E; subst. split; [reflexivity|].
    constructor; [|constructor].
    cbn [contains]. now rewrite Hp.
  - split; [exact (IH d)|]. intros c.
    destruct (split_step c (String d r))
      as [(s' & -> & E & ->)|(h & t & E & -> & Hp)].
    + inversion E; subst s'. clear E.
      destruct (split sep r) as [|h t] eqn:E;
        [now apply split_from_nonempty in E|].
      split.
      * change (join sep (EmptyString :: h :: t))
          with (sep ++ join sep (h :: t))%string.
        now rewrite Jr.
      * constructor; [reflexivity | exact Fr].
    + destruct (IH d) as [Jd Fd]. rewrite E in Jd, Fd.
      split; [now rewrite join_cons_char, Jd|].
      inversion_clear Fd as [|? ? Fh Ft]. constructor; [|exact Ft].
      (* the first piece with [c] in front *)
      cbn [contains]. apply orb_false_iff. split; [|exact Fh].
      destruct (String.prefix sep (String c h)) eqn:P; trivial.
      exfalso. revert P Hp Jd. unfold Codec.delimiter.
      cbn [String.prefix].
      destruct (ascii_dec "," c); [|discriminate].
      destruct h as [|h0 h]; [discriminate|]. cbn [String.prefix].
      destruct (ascii_dec " " h0) as [<-|]; [|discriminate].
      intros _ Hp Jd. rewrite join_cons_char in Jd.
      inversion Jd; subst d.
      destruct (ascii_dec " " " "); [|congruence].
      now rewrite prefix_empty in Hp.
Qed.

Lemma join_split s : join sep (split sep s) = s.
Proof. apply split_pieces. Qed.

Lemma split_delimiter_free s : Codec.delimiter_free (split sep s).
Proof. apply split_pieces. Qed.

Lemma join_decode_multi c : join sep (Codec.decode_multi c) = c.
Proof.
  unfold Codec.decode_multi. destruct c; [reflexivity|]. apply join_split.
Qed.

Lemma decode_multi_again c :
  Codec.decode_multi (join sep (Codec.decode_multi c)) = Codec.decode_multi c.
Proof. now rewrite join_decode_multi. Qed.

End Recoding.

Section RowFacts.

Import Codec.

(** Decoding reads the first 29 cells of the padded row and nothing
    else. *)
Lemma decodeRow_ext a b :
  (forall i, (i < 29)%nat -> cell (pad a) i = cell (pad b) i) ->
  decodeRow a = decodeRow b.
Proof. intros E. unfold decodeRow. rewrite !E by lia. reflexivity. Qed.

Lemma cell_pad cells i : cell (pad cells) i = nth i cells EmptyString.
Proof.
  unfold cell, pad.
  destruct (Nat.lt_ge_cases i (length cells)) as [L|L].
  - now apply app_nth1.
  - rewrite (nth_overflow cells) by exact L. now apply (cell_absent cells i).
Qed.

(** A response round-trips when each of its multi-valued fields does. *)
Lemma roundtrip_when r :
  Forall (fun options => decode_multi (Py.join delimiter options) = options)
         (multi_valued r) ->
  decodeRow (encodeRow r) = Some r.
Proof.
  intros H. destruct r.
  cbv [multi_valued support_gaps financial_impact academic_impact
       support_needs retreat_priorities] in H.
  repeat match goal with
         | H : Forall _ (_ :: _) |- _ => inversion_clear H
         | H : Forall _ [] |- _ => clear H
         end.
  cbv [decodeRow encodeRow pad cell columns
       length Nat.sub repeat app nth
       timestamp name email position tenure satisfaction role_dislikes
       executive_concerns council_dynamics student_body_challenges
       achievements weaknesses skills_needed constitution_knowledge
       support_gaps support_details code_of_conduct financial_challenges
       financial_impact financial_details academic_challenges
       academic_impact academic_details support_needs retreat_goals
       training_topics retreat_priorities previous_retreats
       additional_comments].
  rewrite decode_satisfaction_str.
  repeat match goal with
         | H : decode_multi _ = _ |- _ => rewrite H; clear H
         end.
  reflexivity.
Qed.

(** The fields of a decoded row. *)
Lemma decodeRow_fields cells r :
  decodeRow cells = Some r ->
  decode_satisfaction (cell (pad cells) 5) = Some (satisfaction r)
  /\ multi_valued r
     = map (fun i => decode_multi (cell (pad cells) i)) [14; 18; 21; 23; 26]%nat
  /\ encodeRow r
     = map (fun i => if (i =? 5)%nat then Py.str (satisfaction r)
                     else cell (pad cells) i) (seq 0 29).
Proof.
  unfold decodeRow.
  destruct (decode_satisfaction (cell (pad cells) 5)) as [sat|]; [|discriminate].
  intros [= <-]. split; [reflexivity|]. split; [reflexivity|].
  cbv [encodeRow map seq Nat.eqb
       timestamp name email position tenure satisfaction role_dislikes
       executive_concerns council_dynamics student_body_challenges
       achievements weaknesses skills_needed constitution_knowledge
       support_gaps support_details code_of_conduct financial_challenges
       financial_impact financial_details academic_challenges
       academic_impact academic_details support_needs retreat_goals
       training_topics retreat_priorities previous_retreats
       additional_comments].
  now rewrite !join_decode_multi.
Qed.

End RowFacts.

(** X1: for every cell, joining the options decoded from it gives the
    cell back; no decoded option contains the delimiter, and the
    decoded sequence is never the single empty option. *)
Theorem decoded_options_rejoin (c : string) :
  Py.join Codec.delimiter (Codec.decode_multi c) = c
  /\ Codec.delimiter_free (Codec.decode_multi c)
  /\ Codec.decode_multi c <> [EmptyString].
Proof.
  split; [apply join_decode_multi|]. split.
  - unfold Codec.decode_multi. destruct c; [constructor|].
    apply split_delimiter_free.
  - intros H. pose proof (join_decode_multi c) as J. rewrite H in J.
    subst c. discriminate.
Qed.

(** X2: a response that comes out of decoding a row is given back by
    decoding its own encoded row. *)
Theorem decoded_record_roundtrips (cells : row) (r : response) :
  Codec.decodeRow cells = Some r ->
  Codec.decodeRow (Codec.encodeRow r) = Some r.
Proof.
  intros H. apply roundtrip_when.
  apply decodeRow_fields in H as (_ & -> & _).
  repeat constructor; apply decode_multi_again.
Qed.

Lemma decoded_record_roundtrips_witness :
  exists r, Codec.decodeRow Sample.out_of_range_row = Some r
            /\ Codec.decodeRow (Codec.encodeRow r) = Some r.
Proof.
  eexists. split; [vm_compute; reflexivity|].
  apply (decoded_record_roundtrips Sample.out_of_range_row).
  vm_compute. reflexivity.
Defined.

(** X3: encoding a decoded row again gives the first 29 cells of the
    padded row, but for the satisfaction cell, which holds the decimal
    form of the decoded satisfaction. *)
Theorem reencoding_normalises (cells : row) (r : response) :
  Codec.decodeRow cells = Some r ->
  Codec.encodeRow r
  = map (fun i => if (i =? 5)%nat then Py.str (satisfaction r)
                  else nth i cells EmptyString) (seq 0 29).
Proof.
  intros H. apply decodeRow_fields in H as (_ & _ & ->).
  apply map_ext. intros i. now rewrite cell_pad.
Qed.

Lemma reencoding_normalises_witness :
  exists r, Codec.decodeRow Sample.short_row = Some r
            /\ Codec.encodeRow r
               = map (fun i => if (i =? 5)%nat then Py.str (satisfaction r)
                               else nth i Sample.short_row EmptyString)
                     (seq 0 29).
Proof.
  eexists. split; [vm_compute; reflexivity|].
  apply (reencoding_normalises Sample.short_row). vm_compute. reflexivity.
Defined.

(** X4: empty cells at the end of a row make no difference to what it
    decodes to, so a read that leaves them out loses nothing. *)
Theorem trailing_empty_cells_ignored (cells : row) (k : nat) :
  Codec.decodeRow (cells ++ repeat EmptyString k) = Codec.decodeRow cells.
Proof.
  apply decodeRow_ext. intros i _. rewrite !cell_pad.
  destruct (Nat.lt_ge_cases i (length cells)) as [L|L].
  - now apply app_nth1.
  - rewrite app_nth2 by exact L. rewrite (nth_overflow cells) by exact L.
    destruct (Nat.lt_ge_cases (i - length cells) k) as [M|M].
    + now apply nth_repeat_lt.
    + apply nth_overflow. now rewrite repeat_length.
Qed.

(** X5: a load decodes the rows one by one and in order, and it fails
    as a whole exactly when some row has a satisfaction cell that is
    neither empty nor an integer. *)
Theorem rows_decode_in_order (values : list row) :
  (forall rs, Codec.decodeRows values = Some rs
              <-> Forall2 (fun cells r => Codec.decodeRow cells = Some r)
                          values rs)
  /\ (Codec.decodeRows values = None
      <-> Exists (fun cells =>
                    Codec.cell (Codec.pad cells) 5 <> EmptyString
                    /\ Py.int (Codec.cell (Codec.pad cells) 5) = None)
                 values).
Proof.
  split.
  - induction values as [|cells rest IH]; intros rs; simpl.
    + split; [intros [= <-]; constructor | now inversion 1].
    + destruct (Codec.decodeRow cells) as [r|] eqn:E.
      * destruct (Codec.decodeRows rest) as [rs'|] eqn:E'.
        -- split.
           ++ intros [= <-]. constructor; [exact E | now apply IH].
           ++ inversion 1; subst. apply IH in H4. congruence.
        -- split; [discriminate|]. inversion 1; subst.
           apply IH in H4. discriminate.
      * split; [discriminate|]. inversion 1; subst. congruence.
  - induction values as [|cells rest IH]; simpl.
    + split; [discriminate | now inversion 1].
    + rewrite Exists_cons, <- IH, <- decodeRow_raises.
      destruct (Codec.decodeRow cells) as [r|].
      * destruct (Codec.decodeRows rest); split; try tauto; try discriminate.
        intros [H|H]; discriminate.
      * tauto.
Qed.

(** ** The session and the sheet, step by step *)

Section SyncFacts.

Import Store.

Lemma decodeRows_encoded rs :
  Forall Consistency.roundtrips rs ->
  Codec.decodeRows (map Codec.encodeRow rs) = Some rs.
Proof.
  induction 1 as [|r rs Hr _ IH]; simpl; trivial.
  unfold Consistency.roundtrips in Hr. now rewrite Hr, IH.
Qed.

(** What a submission does to each part of the state. *)
Lemma submit_effect use sv r a :
  let saved := match sv with Responds => use | _ => false end in
  let asked := match sv with Unavailable _ => false | _ => use end in
  responses (submit use sv r a) = responses a ++ [r]
  /\ admin_logged_in (submit use sv r a) = admin_logged_in a
  /\ sheet (submit use sv r a)
     = sheet a ++ (if saved then [Codec.encodeRow r] else [])
  /\ requests (submit use sv r a)
     = requests a ++ (if asked then [values_append (Codec.encodeRow r)] else []).
Proof.
  destruct use, sv; cbn; rewrite ?app_nil_r; now repeat split.
Qed.

Lemma refresh_effect use sv a :
  let asked := match sv with Unavailable _ => false | _ => use end in
  sheet (refresh use sv a) = sheet a
  /\ admin_logged_in (refresh use sv a) = admin_logged_in a
  /\ requests (refresh use sv a)
     = requests a ++ (if asked then [values_get] else []).
Proof.
  destruct use, sv; cbn; rewrite ?app_nil_r; try now repeat split.
  destruct (sheet a) as [|cells rest] eqn:E; [now rewrite ?E|].
  destruct (Codec.decodeRows (cells :: rest)); cbn; now rewrite ?E.
Qed.

Lemma sync_effect use sv a :
  let asked := match sv with Unavailable _ => false | _ => use end in
  sheet (sync use sv a) = sheet a
  /\ admin_logged_in (sync use sv a) = admin_logged_in a
  /\ requests (sync use sv a)
     = requests a ++ (if asked then [values_get] else [])
  /\ responses (sync use sv a) = responses (refresh use sv a).
Proof.
  destruct use, sv; cbn; rewrite ?app_nil_r; try now repeat split.
  destruct (sheet a) as [|cells rest] eqn:E; [now rewrite ?E|].
  destruct (Codec.decodeRows (cells :: rest)); cbn; now rewrite ?E.
Qed.

Lemma refresh_result use sv a :
  responses (refresh use sv a)
  = if use then fst (load_from_sheets true sv a) else responses a.
Proof.
  destruct use; [apply refresh_responses | reflexivity].
Qed.

End SyncFacts.

(** X6: whatever the configuration and whatever the service does, a
    submission adds the response at the end of the session's responses
    and nothing else to them; the sheet gains the encoded row exactly
    when the sheet is in use and the service answers, and at most one
    request, an append of that row, is sent. *)
Theorem submit_always_appends
  (use : bool) (sv : Store.service) (r : response) (a : Store.app) :
  let a' := Store.submit use sv r a in
  Store.responses a' = Store.responses a ++ [r]
  /\ Store.sheet a'
     = Store.sheet a
       ++ (if match sv with Store.Responds => use | _ => false end
           then [Codec.encodeRow r] else [])
  /\ Store.requests a'
     = Store.requests a
       ++ (if match sv with Store.Unavailable _ => false | _ => use end
           then [Store.values_append (Codec.encodeRow r)] else [])
  /\ Store.admin_logged_in a' = Store.admin_logged_in a.
Proof.
  destruct (submit_effect use sv r a) as (H1 & H2 & H3 & H4).
  now repeat split.
Qed.

(** X7: when the sheet holds the encoded rows of the session's
    responses, it still does after a submission that the service
    answers. *)
Theorem submit_keeps_in_sync (r : response) (a : Store.app) :
  Consistency.in_sync a ->
  Consistency.in_sync (Store.submit true Store.Responds r a).
Proof.
  unfold Consistency.in_sync. intros H.
  destruct (submit_effect true Store.Responds r a) as (-> & _ & -> & _).
  now rewrite map_app, H.
Qed.

Lemma submit_keeps_in_sync_witness :
  Consistency.in_sync
    (Store.submit true Store.Responds Sample.filled
       (Scenario.session [Sample.empty_option]
          [Codec.encodeRow Sample.empty_option])).
Proof. apply submit_keeps_in_sync. reflexivity. Defined.

(** X8: when the sheet holds the encoded rows of the session's
    responses and each of them round-trips, a refresh that the service
    answers leaves the responses as they are. *)
Theorem refresh_in_sync_is_identity (a : Store.app) :
  Consistency.in_sync a ->
  Forall Consistency.roundtrips (Store.responses a) ->
  Store.responses (Store.refresh true Store.Responds a) = Store.responses a.
Proof.
  intros S R. rewrite refresh_responses, load_from_sheets_result, S.
  now rewrite decodeRows_encoded.
Qed.

Lemma refresh_in_sync_is_identity_witness :
  Store.responses
    (Store.refresh true Store.Responds
       (Scenario.session [Sample.filled] [Codec.encodeRow Sample.filled]))
  = [Sample.filled].
Proof.
  apply (refresh_in_sync_is_identity
           (Scenario.session [Sample.filled] [Codec.encodeRow Sample.filled])).
  - reflexivity.
  - repeat constructor.
Defined.

(** X9: a response whose save failed is kept in the session only until
    the next refresh: the refresh puts the decoded sheet, which never
    received the row, in the place of the session's responses. *)
Theorem failed_save_lost_on_refresh
  (sv : Store.service) (r : response) (a : Store.app) (rs : list response) :
  sv <> Store.Responds ->
  Codec.decodeRows (Store.sheet a) = Some rs ->
  In r (Store.responses (Store.submit true sv r a))
  /\ Store.responses
       (Store.refresh true Store.Responds (Store.submit true sv r a))
     = rs.
Proof.
  intros Hsv Hrs.
  destruct (submit_effect true sv r a) as (Hr & _ & Hs & _).
  split.
  - rewrite Hr. apply in_or_app. right. now left.
  - rewrite refresh_responses, load_from_sheets_result, Hs.
    destruct sv; [congruence| |]; now rewrite app_nil_r, Hrs.
Qed.

Lemma failed_save_lost_on_refresh_witness :
  In Sample.filled
     (Store.responses
        (Store.submit true (Store.Raises "HttpError 503") Sample.filled
           (Scenario.session [] [])))
  /\ Store.responses
       (Store.refresh true Store.Responds
          (Store.submit true (Store.Raises "HttpError 503") Sample.filled
             (Scenario.session [] [])))
     = [].
Proof.
  apply (failed_save_lost_on_refresh (Store.Raises "HttpError 503")
           Sample.filled (Scenario.session [] []) []).
  - discriminate.
  - reflexivity.
Defined.


(** X11: a refresh and a sync never write: they leave the sheet as it
    is and send at most one request, a read, which they send exactly
    when the sheet is in use and a service object is to be had; both
    leave the session the same responses. *)
Theorem loading_never_writes
  (use : bool) (sv : Store.service) (a : Store.app) :
  let asked := match sv with Store.Unavailable _ => false | _ => use end in
  Store.sheet (Store.refresh use sv a) = Store.sheet a
  /\ Store.sheet (Store.sync use sv a) = Store.sheet a
  /\ Store.requests (Store.refresh use sv a)
     = Store.requests a ++ (if asked then [Store.values_get] else [])
  /\ Store.requests (Store.sync use sv a)
     = Store.requests a ++ (if asked then [Store.values_get] else [])
  /\ Store.responses (Store.sync use sv a)
     = Store.responses (Store.refresh use sv a).
Proof.
  destruct (refresh_effect use sv a) as (H1 & _ & H2).
  destruct (sync_effect use sv a) as (H3 & _ & H4 & H5).
  now repeat split.
Qed.

(** X12: one row of the sheet whose satisfaction cell is neither empty
    nor an integer is enough for a refresh, a sync and the start of a
    session to come back with no responses at all, whatever the other
    rows hold. *)
Theorem corrupt_row_empties_every_load
  (sv : Store.service) (a : Store.app) (cells : row) :
  In cells (Store.sheet a) ->
  Codec.cell (Codec.pad cells) 5 <> EmptyString ->
  Py.int (Codec.cell (Codec.pad cells) 5) = None ->
  Store.responses (Store.refresh true sv a) = []
  /\ Store.responses (Store.sync true sv a) = []
  /\ Store.responses (Store.startup true sv (Store.sheet a)) = [].
Proof.
  intros Hin Hc Hi.
  assert (Hd : Codec.decodeRow cells = None) by now apply decodeRow_raises.
  assert (R : Store.responses (Store.refresh true sv a) = []).
  { rewrite refresh_responses. now apply load_from_sheets_corrupt with cells. }
  split; [exact R|]. split.
  - destruct (sync_effect true sv a) as (_ & _ & _ & ->). exact R.
  - unfold Store.startup.
    pose proof (load_from_sheets_corrupt sv
                  (Store.mkApp [] false (Store.sheet a) [] []) cells Hin Hd) as L.
    destruct (Store.load_from_sheets true sv _) as [rs b]. simpl in L.
    now subst rs.
Qed.

Lemma corrupt_row_empties_every_load_witness :
  Store.responses
    (Store.refresh true Store.Responds
       (Scenario.session [Sample.filled] Scenario.corrupted_sheet)) = []
  /\ Store.responses
       (Store.sync true Store.Responds
          (Scenario.session [Sample.filled] Scenario.corrupted_sheet)) = []
  /\ Store.responses
       (Store.startup true Store.Responds Scenario.corrupted_sheet) = [].
Proof.
  apply (corrupt_row_empties_every_load Store.Responds
           (Scenario.session [Sample.filled] Scenario.corrupted_sheet)
           Sample.corrupt_row).
  - right. now left.
  - vm_compute. discriminate.
  - vm_compute. reflexivity.
Defined.

(** ** Responses that come from the form *)

Section FormFacts.

Import Form.

(** No option of a multi-select is empty or contains the delimiter. *)
Lemma options_plain :
  Forall (fun option => Py.contains Codec.delimiter option = false
                        /\ option <> EmptyString)
         (support_gaps_options ++ financial_impact_options
          ++ academic_impact_options ++ support_needs_options
          ++ retreat_priorities_options).
Proof. repeat constructor; discriminate. Qed.

Lemma selection_roundtrips options selection :
  incl options
       (support_gaps_options ++ financial_impact_options
        ++ academic_impact_options ++ support_needs_options
        ++ retreat_priorities_options) ->
  incl selection options ->
  Codec.decode_multi (Py.join Codec.delimiter selection) = selection.
Proof.
  intros Ho Hs.
  assert (P : forall x, In x selection ->
                        Py.contains Codec.delimiter x = false
                        /\ x <> EmptyString).
  { intros x Hx. apply (proj1 (Forall_forall _ _) options_plain).
    now apply Ho, Hs. }
  apply decode_multi_join.
  - apply Forall_forall. intros x Hx. now apply P.
  - intros ->. now apply (P EmptyString); [left|].
Qed.

Lemma form_roundtrips w :
  selections_within w -> Consistency.roundtrips (response_data w).
Proof.
  intros (_ & Hg & Hf & Ha & Hn & Hp). apply roundtrip_when.
  cbv [Codec.multi_valued response_data support_gaps financial_impact
       academic_impact support_needs retreat_priorities].
  constructor; [|constructor; [|constructor; [|constructor;
    [|constructor; [|constructor]]]]].
  - apply (selection_roundtrips support_gaps_options); trivial.
    intros x Hx. apply in_or_app. now left.
  - destruct (String.eqb (w_financial_challenges w) "Yes"); [|reflexivity].
    apply (selection_roundtrips financial_impact_options); trivial.
    intros x Hx. apply in_or_app. right. apply in_or_app. now left.
  - destruct (String.eqb (w_academic_challenges w) "Yes"); [|reflexivity].
    apply (selection_roundtrips academic_impact_options); trivial.
    intros x Hx. do 2 (apply in_or_app; right). apply in_or_app. now left.
  - apply (selection_roundtrips support_needs_options); trivial.
    intros x Hx. do 3 (apply in_or_app; right). apply in_or_app. now left.
  - apply (selection_roundtrips retreat_priorities_options); trivial.
    intros x Hx. do 4 (apply in_or_app; right). exact Hx.
Qed.

End FormFacts.

(** X13: a response that the form builds, its selections being among
    the options of its widgets, round-trips through the row codec and
    has a satisfaction from 1 to 5; its impact selection and details
    are empty unless the matching challenge is answered "Yes",
    whatever the hidden widgets hold. *)
Theorem form_response_is_sound (w : Form.widgets) :
  Form.selections_within w ->
  let r := Form.response_data w in
  Codec.decodeRow (Codec.encodeRow r) = Some r
  /\ 1 <= satisfaction r <= 5
  /\ (financial_challenges r <> "Yes" ->
      financial_impact r = [] /\ financial_details r = EmptyString)
  /\ (academic_challenges r <> "Yes" ->
      academic_impact r = [] /\ academic_details r = EmptyString).
Proof.
  intros H r. split; [now apply form_roundtrips|]. split.
  - destruct H as (Hs & _). simpl in Hs. subst r. simpl satisfaction. lia.
  - subst r. cbn [Form.response_data financial_challenges financial_impact
                  financial_details academic_challenges academic_impact
                  academic_details].
    split; intros Hno;
      match goal with
      | |- context [String.eqb ?x "Yes"] =>
          destruct (String.eqb_spec x "Yes"); [congruence | now split]
      end.
Qed.

Lemma form_response_is_sound_witness :
  let r := Form.response_data Visit.ann in
  Codec.decodeRow (Codec.encodeRow r) = Some r
  /\ 1 <= satisfaction r <= 5
  /\ (financial_challenges r <> "Yes" ->
      financial_impact r = [] /\ financial_details r = EmptyString)
  /\ (academic_challenges r <> "Yes" ->
      academic_impact r = [] /\ academic_details r = EmptyString).
Proof.
  apply (form_response_is_sound Visit.ann).
  repeat split; try (simpl; tauto);
    intros x Hx; simpl in Hx; simpl; intuition (subst; auto 10).
Defined.

(** X14: from a session whose sheet holds the encoded rows of its
    responses, all of which round-trip, a form submission that the
    service answers followed by a refresh leaves the session with the
    former responses and the new one at the end. *)
Theorem form_submission_survives_refresh (w : Form.widgets) (a : Store.app) :
  Consistency.in_sync a ->
  Forall Consistency.roundtrips (Store.responses a) ->
  Form.selections_within w ->
  Store.responses
    (Store.refresh true Store.Responds
       (Form.submitted true Store.Responds w a))
  = Store.responses a ++ [Form.response_data w].
Proof.
  intros S R V. unfold Form.submitted.
  destruct (submit_effect true Store.Responds (Form.response_data w) a)
    as (Hr & _ & Hs & _).
  rewrite refresh_responses, load_from_sheets_result, Hs, S.
  change [Codec.encodeRow (Form.response_data w)]
    with (map Codec.encodeRow [Form.response_data w]).
  rewrite <- map_app, decodeRows_encoded; trivial.
  apply Forall_app. split; [exact R|].
  constructor; [now apply form_roundtrips | constructor].
Qed.

Lemma form_submission_survives_refresh_witness :
  Store.responses
    (Store.refresh true Store.Responds
       (Form.submitted true Store.Responds Visit.ann
          (Scenario.session [Sample.filled] [Codec.encodeRow Sample.filled])))
  = [Sample.filled] ++ [Form.response_data Visit.ann].
Proof.
  apply (form_submission_survives_refresh Visit.ann
           (Scenario.session [Sample.filled] [Codec.encodeRow Sample.filled])).
  - reflexivity.
  - repeat constructor.
  - repeat split; try (simpl; tauto);
      intros x Hx; simpl in Hx; simpl; intuition (subst; auto 10).
Defined.

(** ** The admin page *)

(** X15: while nobody is logged in, a run of the admin page changes
    nothing of the responses, the sheet, the requests or the notices,
    whatever is pressed; it logs in exactly when the login button is
    pressed with the configured password, which is "UTechAdmin2024"
    when no secret is set. *)
Theorem admin_page_is_gated
  (use : bool) (secret : option string) (accepts : string -> bool)
  (sv : Store.service) (c : Admin.click) (a : Store.app) :
  Store.admin_logged_in a = false ->
  let a' := Admin.state (Admin.page use secret accepts sv c a) in
  Store.responses a' = Store.responses a
  /\ Store.sheet a' = Store.sheet a
  /\ Store.requests a' = Store.requests a
  /\ Store.shown a' = Store.shown a
  /\ (Store.admin_logged_in a' = true
      <-> c = Admin.login (Admin.ADMIN_PASSWORD secret))
  /\ Admin.ADMIN_PASSWORD None = "UTechAdmin2024".
Proof.
  intros H. unfold Admin.page. rewrite H. cbn [negb].
  destruct c as [|password| | |checkbox];
    try (cbn; rewrite H; repeat split; try discriminate; congruence).
  destruct (String.eqb_spec password (Admin.ADMIN_PASSWORD secret)) as [->|Hp];
    cbn; rewrite ?H; repeat split; try discriminate; congruence.
Qed.

Lemma admin_page_is_gated_witness :
  let a' := Admin.state
              (Admin.page true None Visit.rejects_empty Store.Responds
                 (Admin.clear true) (Scenario.session [Sample.filled] [])) in
  Store.responses a' = [Sample.filled]
  /\ Store.sheet a' = []
  /\ Store.requests a' = []
  /\ Store.shown a' = []
  /\ (Store.admin_logged_in a' = true
      <-> Admin.clear true = Admin.login (Admin.ADMIN_PASSWORD None))
  /\ Admin.ADMIN_PASSWORD None = "UTechAdmin2024".
Proof.
  apply (admin_page_is_gated true None Visit.rejects_empty Store.Responds
           (Admin.clear true) (Scenario.session [Sample.filled] [])).
  reflexivity.
Defined.

(** X16: for a logged-in admin, when the timestamp of the last
    response is not one that [datetime.fromisoformat] accepts, a run in
    which logout or clear is pressed ends with the exception before the
    button is looked at and leaves the state as it was; a sync of a
    sheet in use still runs. *)
Theorem bad_timestamp_blocks_admin
  (use : bool) (secret : option string) (accepts : string -> bool)
  (sv : Store.service) (a : Store.app) (earlier : list response)
  (last : response) :
  Store.admin_logged_in a = true ->
  Store.responses a = earlier ++ [last] ->
  accepts (timestamp last) = false ->
  Admin.page use secret accepts sv Admin.logout a
  = Admin.raised a [Admin.logged_in_as_admin]
  /\ (forall checkbox,
        Admin.page use secret accepts sv (Admin.clear checkbox) a
        = Admin.raised a [Admin.logged_in_as_admin])
  /\ Admin.page true secret accepts sv Admin.sync a
     = Admin.finished (Store.sync true sv a) [Admin.logged_in_as_admin].
Proof.
  intros Hl Hr Ht. unfold Admin.page, Admin.latest_raises.
  rewrite Hl, Hr, rev_app_distr. cbn [negb rev app]. rewrite Ht.
  destruct use; now repeat split.
Qed.

Lemma bad_timestamp_blocks_admin_witness :
  Admin.page true None Visit.rejects_empty Store.Responds Admin.logout
    Visit.admin_session
  = Admin.raised Visit.admin_session [Admin.logged_in_as_admin]
  /\ (forall checkbox,
        Admin.page true None Visit.rejects_empty Store.Responds
          (Admin.clear checkbox) Visit.admin_session
        = Admin.raised Visit.admin_session [Admin.logged_in_as_admin])
  /\ Admin.page true None Visit.rejects_empty Store.Responds Admin.sync
       Visit.admin_session
     = Admin.finished (Store.sync true Store.Responds Visit.admin_session)
         [Admin.logged_in_as_admin].
Proof.
  apply (bad_timestamp_blocks_admin true None Visit.rejects_empty
           Store.Responds Visit.admin_session [Sample.filled] Visit.undated);
    reflexivity.
Defined.

(** ** More on the dashboard's figures *)

Section FigureFacts.

Import Insights.

Lemma bump_sum label counts :
  list_sum (map snd (bump label counts)) = S (list_sum (map snd counts)).
Proof.
  induction counts as [|[l n] rest IH]; simpl; trivial.
  destruct (String.eqb label l); simpl; [reflexivity|]. rewrite IH. lia.
Qed.

Lemma tally_sum xs : list_sum (map snd (tally xs)) = length xs.
Proof.
  induction xs as [|x xs IH] using rev_ind; [reflexivity|].
  rewrite tally_snoc, bump_sum, IH, length_app. simpl. lia.
Qed.

Lemma list_sum_perm l l' : Permutation l l' -> list_sum l = list_sum l'.
Proof. induction 1; simpl; lia. Qed.

(** In a sorted list every entry of a front part is related to every
    entry of the rest. *)
Lemma sorted_app_inv {A} (R : A -> A -> Prop) l1 l2 :
  StronglySorted R (l1 ++ l2) ->
  forall p q, In p l1 -> In q l2 -> R p q.
Proof.
  induction l1 as [|a l1 IH]; intros S p q Hp Hq; [easy|].
  simpl in S. inversion_clear S as [|? ? Sl Fa].
  destruct Hp as [<-|Hp]; [|now apply (IH Sl)].
  rewrite Forall_forall in Fa. apply Fa, in_or_app. now right.
Qed.

Lemma sum_bounds lo hi xs :
  (forall x, In x xs -> lo <= x <= hi) ->
  lo * Z.of_nat (length xs) <= fold_right Z.add 0 xs <= hi * Z.of_nat (length xs).
Proof.
  induction xs as [|x xs IH]; intros H; [simpl; lia|].
  assert (Hx : lo <= x <= hi) by (apply H; now left).
  assert (Hxs : forall y, In y xs -> lo <= y <= hi)
    by (intros y Hy; apply H; now right).
  specialize (IH Hxs). cbn [fold_right length]. lia.
Qed.

Lemma head_firstn n counts : head n counts = firstn n counts.
Proof. reflexivity. Qed.

Lemma count_yes_bounds column df :
  0 <= count_yes column df <= Z.of_nat (length df).
Proof.
  unfold count_yes. pose proof (filter_length_le
    (fun r => String.eqb (column r) "Yes") df). lia.
Qed.

End FigureFacts.

(** X17: the counts of a multi-valued field add up to the number of
    options selected over all responses: each selection is counted
    once, in the chart of the priorities as in the eight gaps shown. *)
Theorem counts_add_up
  (column : response -> list string) (df : list response) :
  list_sum (map snd (Insights.value_counts (Insights.collect column df)))
  = list_sum (map (fun r => length (column r)) df).
Proof.
  unfold Insights.value_counts.
  rewrite (list_sum_perm _ _
             (Permutation_map snd (sort_counts_perm _))), tally_sum.
  rewrite collect_selected. unfold Stated.selected.
  induction df as [|r df IH]; simpl; trivial.
  now rewrite length_app, IH.
Qed.

(** X18: [head n] keeps the most selected categories: no category left
    out of it has a larger count than one kept in it, and the ones
    kept are [n] when there are as many, else all. *)
Theorem head_keeps_most_selected (xs : list string) (n : nat) :
  let counts := Insights.value_counts xs in
  (forall kept left_out,
      In kept (Insights.head n counts) -> In left_out (skipn n counts) ->
      (snd left_out <= snd kept)%nat)
  /\ length (Insights.head n counts) = Nat.min n (length counts)
  /\ Insights.head n counts ++ skipn n counts = counts.
Proof.
  intros counts. split; [|split].
  - intros kept left_out Hk Hl.
    destruct (value_counts_spec xs) as (_ & _ & S).
    fold counts in S. rewrite <- (firstn_skipn n counts) in S.
    pose proof (sorted_app_inv _ _ _ S kept left_out Hk Hl) as R.
    unfold Stated.ranks_before in R. lia.
  - apply length_firstn.
  - apply firstn_skipn.
Qed.

(** X19: when every satisfaction lies between two bounds, so does the
    average the dashboard shows for a non-empty collection; with every
    satisfaction at 3 or above there is no low-satisfaction alert. *)
Theorem average_within_bounds (df : list response) (lo hi : Z) :
  df <> [] ->
  (forall r, In r df -> lo <= satisfaction r <= hi) ->
  exists m,
    Insights.avg_sat (Insights.analyse df) = Some m
    /\ (inject_Z lo <= m <= inject_Z hi)%Q
    /\ (3 <= lo ->
        ~ In Insights.low_satisfaction
             (Insights.findings (Insights.analyse df))).
Proof.
  intros Hne Hb.
  assert (B : lo * Z.of_nat (length df)
              <= Insights.total (map satisfaction df)
              <= hi * Z.of_nat (length df)).
  { rewrite total_sum. unfold Stated.satisfaction_sum.
    rewrite <- (length_map satisfaction).
    apply sum_bounds. intros x Hx. apply in_map_iff in Hx as (r & <- & Hr).
    now apply Hb. }
  destruct df as [|r df]; [congruence|].
  eexists. split; [reflexivity|]. split.
  - unfold Qle. cbn [Qnum Qden inject_Z].
    replace (Z.pos (Pos.of_nat (length (map satisfaction (r :: df)))))
      with (Z.of_nat (length (r :: df)))
      by (rewrite length_map; simpl length; lia).
    lia.
  - intros H3 Hin. apply in_findings in Hin.
    destruct Hin as [(_ & H & _)|[H|[H|H]]];
      try (destruct H as (_ & H); discriminate).
    nia.
Qed.

Lemma average_within_bounds_witness :
  exists m,
    Insights.avg_sat (Insights.analyse Sample.spread) = Some m
    /\ (inject_Z 1 <= m <= inject_Z 5)%Q
    /\ (3 <= 1 ->
        ~ In Insights.low_satisfaction
             (Insights.findings (Insights.analyse Sample.spread))).
Proof.
  apply (average_within_bounds Sample.spread 1 5).
  - discriminate.
  - intros r Hr. simpl in Hr.
    repeat (destruct Hr as [<-|Hr]; [simpl; lia|]). destruct Hr.
Defined.

(** The counts of the two challenges among the figures, and the
    findings at their extremes. *)
Lemma extremes_of_analyse (df : list response) :
  df <> [] ->
  let f := Insights.analyse df in
  0 <= Insights.financial_yes f <= Insights.total_responses f
  /\ 0 <= Insights.academic_yes f <= Insights.total_responses f
  /\ (Insights.financial_yes f = 0 ->
      ~ In Insights.financial_support_needed (Insights.findings f))
  /\ (Insights.financial_yes f = Insights.total_responses f ->
      In Insights.financial_support_needed (Insights.findings f))
  /\ (Insights.academic_yes f = 0 ->
      ~ In Insights.academic_balance_concerns (Insights.findings f))
  /\ (Insights.academic_yes f = Insights.total_responses f ->
      In Insights.academic_balance_concerns (Insights.findings f)).
Proof.
  intros Hne f.
  assert (Hn : 0 < Z.of_nat (length df))
    by (destruct df; [congruence | simpl; lia]).
  subst f.
  cbn [Insights.analyse Insights.financial_yes Insights.academic_yes
       Insights.total_responses].
  split; [apply count_yes_bounds|]. split; [apply count_yes_bounds|].
  repeat split.
  - intros H0 Hin. apply in_findings in Hin.
    destruct Hin as [H|[H|[H|H]]];
      try (destruct H as (_ & _ & H); discriminate);
      try (destruct H as (_ & H); discriminate).
    destruct H as [H _]. lia.
  - intros Hall. apply in_findings. right. left. split; [lia | reflexivity].
  - intros H0 Hin. apply in_findings in Hin.
    destruct Hin as [H|[H|[H|H]]];
      try (destruct H as (_ & _ & H); discriminate);
      try (destruct H as (_ & H); discriminate).
    destruct H as [H _]. lia.
  - intros Hall. apply in_findings. right. right. left.
    split; [lia | reflexivity].
Qed.

(** X21: the focus-areas finding names at least one and at most three
    categories, all different, each selected as a retreat priority in
    some response. *)
Theorem focus_areas_are_selected (df : list response) (index : list string) :
  In (Insights.retreat_focus_areas index)
     (Insights.findings (Insights.analyse df)) ->
  index <> []
  /\ (length index <= 3)%nat
  /\ NoDup index
  /\ forall category, In category index ->
       exists r, In r df /\ In category (retreat_priorities r).
Proof.
  intros H. apply in_findings in H.
  destruct H as [H|[H|[H|H]]];
    try (destruct H as (_ & _ & H); discriminate);
    try (destruct H as (_ & H); discriminate).
  destruct H as [Hne H].
  assert (E : index
              = map fst (Insights.head 3
                           (Insights.value_counts
                              (Insights.collect retreat_priorities df))))
    by congruence.
  clear H. rewrite E. clear E index.
  rewrite collect_selected in *.
  set (input := Stated.selected retreat_priorities df) in *.
  destruct (value_counts_spec input) as (Hnd & Hin & _).
  rewrite head_firstn. repeat split.
  - destruct input as [|x input'] eqn:E; [congruence|].
    assert (Hx : In (x, count_occ string_dec (x :: input') x)
                    (Insights.value_counts (x :: input')))
      by (apply Hin; split; [now left | reflexivity]).
    destruct (Insights.value_counts (x :: input')); [destruct Hx | discriminate].
  - rewrite length_map. apply firstn_le_length.
  - rewrite <- (firstn_skipn 3 (Insights.value_counts input)), map_app in Hnd.
    now apply NoDup_app_remove_r in Hnd.
  - intros category Hc. apply in_map_iff in Hc as ([k c] & <- & Hc).
    assert (Hk : In (k, c) (Insights.value_counts input)).
    { rewrite <- (firstn_skipn 3 (Insights.value_counts input)).
      apply in_or_app. now left. }
    apply Hin in Hk as [Hk _]. unfold input, Stated.selected in Hk.
    apply in_flat_map in Hk as (r & Hr & Hk). now exists r.
Qed.

Lemma focus_areas_are_selected_witness :
  let df := [Form.response_data Visit.ann] in
  let index := ["Skills training and workshops";
                "Team building and Council unity"] in
  index <> []
  /\ (length index <= 3)%nat
  /\ NoDup index
  /\ forall category, In category index ->
       exists r, In r df /\ In category (retreat_priorities r).
Proof.
  apply (focus_areas_are_selected [Form.response_data Visit.ann]).
  vm_compute. auto 10.
Defined.

(** X22: when every selected support gap is one of the eight options
    of the form, [head(8)] cuts nothing: the chart of the gaps shows
    all of their counts. *)
Theorem gap_chart_is_complete (df : list response) :
  (forall r, In r df -> incl (support_gaps r) Form.support_gaps_options) ->
  Insights.gap_counts (Insights.analyse df)
  = Insights.value_counts (Insights.collect support_gaps df).
Proof.
  intros H. cbn [Insights.gap_counts Insights.analyse]. unfold Insights.head.
  apply firstn_all2.
  destruct (value_counts_spec (Insights.collect support_gaps df))
    as (Hnd & Hin & _).
  rewrite <- (length_map fst).
  change 8%nat with (length Form.support_gaps_options).
  apply NoDup_incl_length; [exact Hnd|].
  intros k Hk. apply in_map_iff in Hk as ([k' c] & <- & Hk).
  apply Hin in Hk as [Hk _]. rewrite collect_selected in Hk.
  apply in_flat_map in Hk as (r & Hr & Hk). now apply (H r Hr).
Qed.

Lemma gap_chart_is_complete_witness :
  Insights.gap_counts (Insights.analyse [Form.response_data Visit.ann])
  = Insights.value_counts
      (Insights.collect support_gaps [Form.response_data Visit.ann]).
Proof.
  apply (gap_chart_is_complete [Form.response_data Visit.ann]).
  intros r [<-|[]] x Hx. simpl in Hx. simpl. intuition (subst; auto 10).
Defined.

(** ** The satisfaction chart *)

Section ChartFacts.

Import Chart.

Local Abbreviation keys := (map (@fst Z nat)).

Lemma sat_counts_snoc df r :
  sat_counts (df ++ [r]) = bump_sorted (satisfaction r) (sat_counts df).
Proof. unfold sat_counts. now rewrite fold_left_app. Qed.

Lemma bump_sorted_keys v counts k :
  In k (keys (bump_sorted v counts)) <-> k = v \/ In k (keys counts).
Proof.
  induction counts as [|[k0 n0] rest IH]; simpl; [intuition congruence|].
  destruct (Z.ltb_spec v k0); [simpl; intuition congruence|].
  destruct (Z.eqb_spec v k0); simpl; [intuition congruence|].
  rewrite IH. intuition congruence.
Qed.

Lemma bump_sorted_sorted v counts :
  StronglySorted Z.lt (keys counts) ->
  StronglySorted Z.lt (keys (bump_sorted v counts)).
Proof.
  induction counts as [|[k0 n0] rest IH]; intros S; simpl.
  - repeat constructor.
  - simpl in S. inversion_clear S as [|? ? Srest Fk].
    destruct (Z.ltb_spec v k0) as [Hlt|Hge].
    + simpl. constructor; [now constructor|].
      constructor; [exact Hlt|].
      rewrite Forall_forall in *. intros k Hk. specialize (Fk k Hk). lia.
    + destruct (Z.eqb_spec v k0) as [->|Hne]; simpl.
      * now constructor.
      * constructor; [now apply IH|].
        rewrite Forall_forall in *. intros k Hk.
        apply bump_sorted_keys in Hk as [->|Hk]; [lia | now apply Fk].
Qed.

Lemma bump_sorted_other v counts k n :
  k <> v -> In (k, n) (bump_sorted v counts) <-> In (k, n) counts.
Proof.
  intros Hk. induction counts as [|[k0 n0] rest IH]; simpl.
  - split; [intros [H|[]]; congruence | tauto].
  - destruct (Z.ltb_spec v k0) as [Hlt|Hge]; simpl.
    + split; [intros [H|H]; [congruence | exact H] | tauto].
    + destruct (Z.eqb_spec v k0) as [->|Hne]; simpl.
      * split; (intros [H|H]; [left; congruence | now right]).
      * now rewrite IH.
Qed.

Lemma in_keys (k : Z) (n : nat) counts : In (k, n) counts -> In k (keys counts).
Proof. intros H. now apply (in_map fst) in H. Qed.

Lemma bump_sorted_same v counts n :
  StronglySorted Z.lt (keys counts) ->
  In (v, n) (bump_sorted v counts)
  <-> (exists m, n = S m /\ In (v, m) counts)
      \/ (~ In v (keys counts) /\ n = 1%nat).
Proof.
  induction counts as [|[k0 n0] rest IH]; intros S; simpl.
  - split.
    + intros [H|[]]. right. split; [tauto | congruence].
    + intros [(m & _ & [])|[_ ->]]. now left.
  - simpl in S. inversion_clear S as [|? ? Srest Fk].
    rewrite Forall_forall in Fk.
    assert (Hrest : forall j, In (v, j) rest -> k0 < v)
      by (intros j Hj; apply Fk; now apply in_keys in Hj).
    destruct (Z.ltb_spec v k0) as [Hlt|Hge].
    + split.
      * intros [H|[H|H]].
        -- right. split; [|congruence].
           intros [H'|H']; [simpl in H'; lia | specialize (Fk v H'); lia].
        -- injection H as -> ->. lia.
        -- specialize (Hrest n H). lia.
      * intros [(m & -> & [H|H])|[_ ->]].
        -- injection H as -> ->. lia.
        -- specialize (Hrest m H). lia.
        -- now left.
    + destruct (Z.eqb_spec v k0) as [->|Hne].
      * split.
        -- intros [H|H].
           ++ left. exists n0. split; [congruence | now left].
           ++ specialize (Hrest n H). lia.
        -- intros [(m & -> & [H|H])|[Hno _]].
           ++ left. congruence.
           ++ specialize (Hrest m H). lia.
           ++ exfalso. apply Hno. now left.
      * simpl. rewrite (IH Srest). split.
        -- intros [H|[(m & -> & H)|[Hno ->]]].
           ++ congruence.
           ++ left. exists m. auto.
           ++ right. split; [|reflexivity].
              intros [H|H]; [simpl in H; congruence | tauto].
        -- intros [(m & -> & [H|H])|[Hno ->]].
           ++ congruence.
           ++ right. left. exists m. auto.
           ++ right. right. split; [|reflexivity].
              intros H. apply Hno. now right.
Qed.

(** The counts of the chart: one entry for each satisfaction that
    occurs, with the number of its occurrences, in ascending order. *)
Lemma sat_counts_spec df :
  StronglySorted Z.lt (keys (sat_counts df))
  /\ forall v n,
       In (v, n) (sat_counts df)
       <-> In v (map satisfaction df)
           /\ n = count_occ Z.eq_dec (map satisfaction df) v.
Proof.
  induction df as [|r df [S Hin]] using rev_ind.
  - split; [constructor|]. simpl. tauto.
  - rewrite sat_counts_snoc. split; [now apply bump_sorted_sorted|].
    intros v n. rewrite map_app, in_app_iff, count_occ_app. simpl.
    assert (Hkeys : In (satisfaction r) (keys (sat_counts df))
                    <-> In (satisfaction r) (map satisfaction df)).
    { split.
      - intros H. apply in_map_iff in H as ([k c] & E & H). simpl in E.
        subst k. now apply Hin in H.
      - intros H. apply (in_keys _ (count_occ Z.eq_dec (map satisfaction df)
                                      (satisfaction r))).
        apply Hin. now split. }
    destruct (Z.eq_dec (satisfaction r) v) as [<-|Hne].
    + rewrite (bump_sorted_same _ _ _ S). split.
      * intros [(m & -> & H)|[Hno ->]].
        -- apply Hin in H as [H ->]. split; [auto | lia].
        -- split; [auto|]. rewrite Hkeys in Hno.
           apply (count_occ_not_In Z.eq_dec) in Hno. lia.
      * intros [_ ->].
        destruct (in_dec Z.eq_dec (satisfaction r) (map satisfaction df))
          as [Hy|Hn].
        -- left. exists (count_occ Z.eq_dec (map satisfaction df)
                           (satisfaction r)).
           split; [lia|]. apply Hin. now split.
        -- right. rewrite Hkeys. split; [exact Hn|].
           apply (count_occ_not_In Z.eq_dec) in Hn. lia.
    + rewrite bump_sorted_other by congruence. rewrite Hin. split.
      * intros [H ->]. split; [auto | lia].
      * intros [[H|[H|[]]] ->]; [|congruence]. split; [exact H | lia].
Qed.

Lemma sat_labels_none i : sat_labels i = None <-> ~ (1 <= i <= 5).
Proof.
  split.
  - intros H [H1 H5].
    assert (C : i = 1 \/ i = 2 \/ i = 3 \/ i = 4 \/ i = 5) by lia.
    destruct C as [-> | [-> | [-> | [-> | ->]]]]; discriminate.
  - intros H. destruct i as [|p|p]; trivial.
    destruct p as [ [ [ ? | ? | ] | [ ? | ? | ] | ] | [ [ ? | ? | ] | [ ? | ? | ] | ] | ];
      trivial; lia.
Qed.

(** The bars are drawn when every value has a label. *)
Lemma bars_drawn counts :
  (forall i, In i (keys counts) -> sat_labels i <> None) ->
  exists drawn, bars counts = inr drawn
                /\ map snd drawn = map snd counts
                /\ map (fun p => Some (fst p)) drawn
                   = map (fun p => sat_labels (fst p)) counts.
Proof.
  induction counts as [|[i n] rest IH]; intros H; simpl.
  - now exists [].
  - destruct (sat_labels i) as [label|] eqn:E;
      [|exfalso; apply (H i); [now left | exact E]].
    destruct IH as (drawn & -> & Hs & Hl); [intros j Hj; apply H; now right|].
    exists ((label, n) :: drawn). simpl. now rewrite Hs, Hl.
Qed.

(** The lookup raises on the first value without a label, which in
    ascending order is the least one. *)
Lemma bars_raise counts :
  StronglySorted Z.lt (keys counts) ->
  (exists i, In i (keys counts) /\ sat_labels i = None) ->
  exists key, bars counts = inl key
              /\ In key (keys counts) /\ sat_labels key = None
              /\ forall i, In i (keys counts) -> sat_labels i = None ->
                           key <= i.
Proof.
  induction counts as [|[i n] rest IH]; intros S (j & Hj & Ej); [easy|].
  simpl in S. inversion_clear S as [|? ? Srest Fi]. simpl.
  destruct (sat_labels i) as [label|] eqn:E.
  - destruct Hj as [Hj|Hj]; [simpl in Hj; congruence|].
    destruct (IH Srest) as (key & -> & Hk & Ek & Hmin); [now exists j|].
    exists key. repeat split; auto.
    intros k [Hk'|Hk'] Ek'; [simpl in Hk'; congruence | now apply Hmin].
  - exists i. repeat split; auto.
    intros k [Hk|Hk] _; [simpl in Hk; lia|].
    rewrite Forall_forall in Fi. specialize (Fi k Hk). lia.
Qed.

End ChartFacts.

Section RenderFacts.

Import Chart.

Lemma render_nonempty r df :
  render (r :: df)
  = match bars (sat_counts (r :: df)) with
    | inl key => key_error (metrics_of (Insights.analyse (r :: df))) key
    | inr drawn => page (Insights.analyse (r :: df)) drawn
    end.
Proof. reflexivity. Qed.

Lemma sat_count_keys df i :
  In i (map fst (sat_counts df)) <-> exists r, In r df /\ satisfaction r = i.
Proof.
  destruct (sat_counts_spec df) as [_ Hin]. split.
  - intros H. apply in_map_iff in H as ([k c] & E & H). simpl in E. subst k.
    apply Hin in H as [H _]. apply in_map_iff in H as (r & E & H).
    now exists r.
  - intros (r & Hr & <-).
    apply (in_keys _ (count_occ Z.eq_dec (map satisfaction df) (satisfaction r))).
    apply Hin. split; [now apply in_map | reflexivity].
Qed.

Lemma render_in_range df :
  df <> [] ->
  (forall r, In r df -> 1 <= satisfaction r <= 5) ->
  exists drawn,
    render df = page (Insights.analyse df) drawn
    /\ map snd drawn = map snd (sat_counts df)
    /\ map (fun p => Some (fst p)) drawn
       = map (fun p => sat_labels (fst p)) (sat_counts df).
Proof.
  intros Hne Hr. destruct df as [|r df]; [congruence|].
  destruct (bars_drawn (sat_counts (r :: df))) as (drawn & E & Hs & Hl).
  { intros i Hi. apply sat_count_keys in Hi as (r' & Hr' & <-).
    intros Hn. apply sat_labels_none in Hn. now apply Hn, Hr. }
  exists drawn. rewrite render_nonempty, E. now repeat split.
Qed.

Lemma render_out_of_range df :
  (exists r, In r df /\ ~ (1 <= satisfaction r <= 5)) ->
  exists key,
    render df = key_error (metrics_of (Insights.analyse df)) key
    /\ ~ (1 <= key <= 5)
    /\ (exists r, In r df /\ satisfaction r = key)
    /\ forall r, In r df -> ~ (1 <= satisfaction r <= 5) ->
                 key <= satisfaction r.
Proof.
  intros (r0 & Hr0 & Hout).
  destruct (sat_counts_spec df) as [S _].
  destruct (bars_raise (sat_counts df) S) as (key & E & Hk & Hn & Hmin).
  { exists (satisfaction r0). split.
    - apply sat_count_keys. now exists r0.
    - now apply sat_labels_none. }
  exists key. repeat split.
  - destruct df as [|r df]; [destruct Hr0|]. now rewrite render_nonempty, E.
  - now apply sat_labels_none.
  - now apply sat_count_keys.
  - intros r Hr Ho. apply Hmin.
    + apply sat_count_keys. now exists r.
    + now apply sat_labels_none.
Qed.

Lemma decodeRows_in values rs cells :
  Codec.decodeRows values = Some rs -> In cells values ->
  exists r, In r rs /\ Codec.decodeRow cells = Some r.
Proof.
  revert rs. induction values as [|c rest IH]; intros rs H Hin; [easy|].
  simpl in H. destruct (Codec.decodeRow c) as [r|] eqn:E; [|discriminate].
  destruct (Codec.decodeRows rest) as [rs'|]; [|discriminate].
  injection H as <-. destruct Hin as [->|Hin].
  - exists r. split; [now left | exact E].
  - destruct (IH rs' eq_refl Hin) as (r' & Hr' & E'). exists r'.
    split; [now right | exact E'].
Qed.

End RenderFacts.

(** X23: the counts under the satisfaction chart hold one entry for
    each satisfaction value that occurs, with the number of responses
    that have it, in ascending order of the value. *)
Theorem satisfaction_counts_are_exact (df : list response) :
  StronglySorted Z.lt (map fst (Chart.sat_counts df))
  /\ forall v n,
       In (v, n) (Chart.sat_counts df)
       <-> (0 < n)%nat /\ n = count_occ Z.eq_dec (map satisfaction df) v.
Proof.
  destruct (sat_counts_spec df) as [S Hin]. split; [exact S|].
  intros v n. rewrite Hin. split.
  - intros [H ->]. split; [|reflexivity].
    now apply (count_occ_In Z.eq_dec) in H.
  - intros [H ->]. split; [|reflexivity].
    now apply (count_occ_In Z.eq_dec).
Qed.

(** X24: with every satisfaction from 1 to 5, a non-empty collection
    is rendered whole: the chart has one bar for each value that
    occurs, labelled by [sat_labels] and as high as its count, and the
    figures and insights follow. *)
Theorem dashboard_renders_in_range (df : list response) :
  df <> [] ->
  (forall r, In r df -> 1 <= satisfaction r <= 5) ->
  exists drawn,
    Chart.render df = Chart.page (Insights.analyse df) drawn
    /\ map snd drawn = map snd (Chart.sat_counts df)
    /\ map (fun p => Some (fst p)) drawn
       = map (fun p => Chart.sat_labels (fst p)) (Chart.sat_counts df).
Proof. apply render_in_range. Qed.

Lemma dashboard_renders_in_range_witness :
  exists drawn,
    Chart.render Sample.spread = Chart.page (Insights.analyse Sample.spread) drawn
    /\ map snd drawn = map snd (Chart.sat_counts Sample.spread)
    /\ map (fun p => Some (fst p)) drawn
       = map (fun p => Chart.sat_labels (fst p)) (Chart.sat_counts Sample.spread).
Proof.
  apply (dashboard_renders_in_range Sample.spread).
  - discriminate.
  - intros r Hr. simpl in Hr.
    repeat (destruct Hr as [<-|Hr]; [simpl; lia|]). destruct Hr.
Defined.

(** X25: one response with a satisfaction outside 1..5 makes the
    label lookup of the satisfaction chart raise [KeyError], on the
    least such satisfaction; the run ends after the metrics, so the
    other charts and the insights are not shown. *)
Theorem dashboard_raises_out_of_range (df : list response) :
  (exists r, In r df /\ ~ (1 <= satisfaction r <= 5)) ->
  exists key,
    Chart.render df
    = Chart.key_error (Chart.metrics_of (Insights.analyse df)) key
    /\ ~ (1 <= key <= 5)
    /\ (exists r, In r df /\ satisfaction r = key)
    /\ forall r, In r df -> ~ (1 <= satisfaction r <= 5) ->
                 key <= satisfaction r.
Proof. apply render_out_of_range. Qed.

Lemma dashboard_raises_out_of_range_witness :
  exists key,
    Chart.render (Sample.answer 7 "No" "No" [] :: Sample.spread)
    = Chart.key_error
        (Chart.metrics_of
           (Insights.analyse (Sample.answer 7 "No" "No" [] :: Sample.spread)))
        key
    /\ ~ (1 <= key <= 5)
    /\ (exists r, In r (Sample.answer 7 "No" "No" [] :: Sample.spread)
                  /\ satisfaction r = key)
    /\ forall r, In r (Sample.answer 7 "No" "No" [] :: Sample.spread) ->
                 ~ (1 <= satisfaction r <= 5) -> key <= satisfaction r.
Proof.
  apply (dashboard_raises_out_of_range
           (Sample.answer 7 "No" "No" [] :: Sample.spread)).
  exists (Sample.answer 7 "No" "No" []). split; [now left | simpl; lia].
Defined.

(** X26: when the rows of the sheet all decode and one of them has a
    satisfaction cell holding an integer outside 1..5, the dashboard
    raises after a refresh: the codec lets the value in and the chart
    has no label for it. *)
Theorem out_of_range_cell_breaks_dashboard
  (a : Store.app) (rs : list response) (cells : row) (n : Z) :
  Codec.decodeRows (Store.sheet a) = Some rs ->
  In cells (Store.sheet a) ->
  Py.int (Codec.cell (Codec.pad cells) 5) = Some n ->
  ~ (1 <= n <= 5) ->
  exists shown key,
    Chart.render (Store.responses (Store.refresh true Store.Responds a))
    = Chart.key_error shown key
    /\ ~ (1 <= key <= 5).
Proof.
  intros Hrs Hin Hn Hout.
  rewrite refresh_responses, load_from_sheets_result, Hrs.
  destruct (decodeRows_in _ _ _ Hrs Hin) as (r & Hr & Hd).
  assert (Hs : satisfaction r = n).
  { destruct (decodeRow_fields _ _ Hd) as (Hsat & _).
    unfold Codec.decode_satisfaction in Hsat.
    destruct (Codec.cell (Codec.pad cells) 5); [discriminate|].
    simpl in Hsat. congruence. }
  destruct (render_out_of_range rs) as (key & E & Hk & _).
  { exists r. split; [exact Hr | now rewrite Hs]. }
  eexists. exists key. split; [exact E | exact Hk].
Qed.

Lemma out_of_range_cell_breaks_dashboard_witness :
  exists shown key,
    Chart.render
      (Store.responses
         (Store.refresh true Store.Responds
            (Scenario.session [] [Sample.out_of_range_row])))
    = Chart.key_error shown key
    /\ ~ (1 <= key <= 5).
Proof.
  eapply (out_of_range_cell_breaks_dashboard
            (Scenario.session [] [Sample.out_of_range_row])
            _ Sample.out_of_range_row 7).
  - vm_compute. reflexivity.
  - now left.
  - vm_compute. reflexivity.
  - lia.
Defined.

(** X27: responses built by the form, their selections being among
    the options of its widgets, never make the dashboard raise: a
    non-empty collection of them is rendered whole. *)
Theorem form_responses_render (ws : list Form.widgets) :
  ws <> [] ->
  (forall w, In w ws -> Form.selections_within w) ->
  exists drawn,
    Chart.render (map Form.response_data ws)
    = Chart.page (Insights.analyse (map Form.response_data ws)) drawn.
Proof.
  intros Hne Hw.
  destruct (render_in_range (map Form.response_data ws)) as (drawn & E & _).
  - destruct ws; [congruence | discriminate].
  - intros r Hr. apply in_map_iff in Hr as (w & <- & Hin).
    destruct (Hw w Hin) as (Hs & _). simpl in Hs. simpl satisfaction. lia.
  - now exists drawn.
Qed.

Lemma form_responses_render_witness :
  exists drawn,
    Chart.render (map Form.response_data [Visit.ann])
    = Chart.page (Insights.analyse (map Form.response_data [Visit.ann])) drawn.
Proof.
  apply (form_responses_render [Visit.ann]).
  - discriminate.
  - intros w [<-|[]].
    repeat split; try (simpl; tauto);
      intros x Hx; simpl in Hx; simpl; intuition (subst; auto 10).
Defined.

(** ** The thresholds in binary64 *)

Lemma over_30_percent_exact_witness :
  Binary64.over_30_percent (Z.of_nat 3) (Z.of_nat 10)
  = Insights.Qltb (inject_Z (Z.of_nat 10) * (3 # 10)) (inject_Z (Z.of_nat 3)).
Proof. apply (over_30_percent_exact 3 10). lia. Defined.

Lemma mean_below_3_exact_witness :
  Binary64.mean_below_3 (Z.of_nat 29) (Z.of_nat 10)
  = Insights.Qltb (Z.of_nat 29 # Pos.of_nat 10) 3.
Proof. apply (mean_below_3_exact 29 10); lia. Defined.

(** * The dashboard's numbers in binary64

    The mean and the two thresholds as Python and pandas compute them,
    in IEEE 754 double precision, against exact arithmetic. *)

Section Rounding.

Import Binary64.

Lemma digits2_size p : digits2_pos p = Pos.size p.
Proof. induction p; simpl; congruence. Qed.

Lemma digits2_bounds p :
  2 ^ (Z.pos (digits2_pos p) - 1) <= Z.pos p < 2 ^ Z.pos (digits2_pos p).
Proof.
  rewrite digits2_size. split.
  - pose proof (Pos.size_le p) as H.
    assert (H' : Z.pos (2 ^ Pos.size p) <= Z.pos p~0) by exact H.
    rewrite Pos2Z.inj_pow in H'.
    replace (Z.pos (Pos.size p)) with (Z.succ (Z.pos (Pos.size p) - 1)) in H' by lia.
    rewrite Z.pow_succ_r in H' by lia. lia.
  - pose proof (Pos.size_gt p) as H.
    assert (H' : Z.pos p < Z.pos (2 ^ Pos.size p)) by exact H.
    now rewrite Pos2Z.inj_pow in H'.
Qed.

Lemma digits2_unique p d :
  2 ^ (d - 1) <= Z.pos p < 2 ^ d -> Z.pos (digits2_pos p) = d.
Proof.
  intros [L U]. pose proof (digits2_bounds p) as [L' U'].
  set (d' := Z.pos (digits2_pos p)) in *.
  assert (0 < d) by (destruct d; try lia; simpl in U; lia).
  destruct (Z.lt_trichotomy d' d) as [H1|[H1|H1]]; trivial.
  - assert (2 ^ d' <= 2 ^ (d - 1)) by (apply Z.pow_le_mono_r; lia). lia.
  - assert (2 ^ d <= 2 ^ (d' - 1)) by (apply Z.pow_le_mono_r; lia). lia.
Qed.

Lemma iter_xO p k : Z.pos (Pos.iter xO p k) = Z.pos p * 2 ^ Z.pos k.
Proof.
  induction k using Pos.peano_ind.
  - simpl. lia.
  - rewrite Pos.iter_succ, Pos2Z.inj_xO, IHk, Pos2Z.inj_succ, Z.pow_succ_r by lia.
    lia.
Qed.

Lemma fexp_normal e : -1021 <= e -> fexp prec emax e = e - 53.
Proof. unfold fexp, emin, prec, emax. lia. Qed.

Lemma loc_of_record m l : loc_of_shr_record (shr_record_of_loc m l) = l.
Proof. now destruct l as [|[]]. Qed.

Lemma shr_m_record m l : shr_m (shr_record_of_loc m l) = m.
Proof. now destruct l as [|[]]. Qed.

Lemma round_nearest_even_cases m l :
  round_nearest_even m l = m \/ round_nearest_even m l = m + 1.
Proof. destruct l as [|[]]; simpl; auto. destruct (Z.even m); auto. Qed.

Lemma binary_round_aux_finish sx m e l :
  binary_round_aux prec emax sx m e l
  = let '(mrs, e') := shr_fexp prec emax m e l in
    finish sx (round_nearest_even (shr_m mrs) (loc_of_shr_record mrs)) e'.
Proof. reflexivity. Qed.

Lemma shr_fexp_53 m e l :
  2 ^ 52 <= m < 2 ^ 53 -> -1074 <= e ->
  shr_fexp prec emax m e l = (shr_record_of_loc m l, e).
Proof.
  intros Hm He. unfold shr_fexp. destruct m as [|p|p]; try lia.
  cbn [Zdigits2]. rewrite (digits2_unique p 53) by exact Hm.
  rewrite fexp_normal by lia.
  now replace (53 + e - 53 - e) with 0 by lia.
Qed.

Lemma finish_53 sx m e :
  2 ^ 52 <= m <= 2 ^ 53 -> -1074 <= e <= 970 ->
  finish sx m e
  = if m <? 2 ^ 53 then S754_finite sx (Z.to_pos m) e
    else S754_finite sx (Z.to_pos (2 ^ 52)) (e + 1).
Proof.
  intros Hm He. unfold finish.
  destruct (Z.ltb_spec m (2 ^ 53)) as [H|H].
  - rewrite shr_fexp_53 by lia. cbn [shr_record_of_loc shr_m].
    destruct m as [|p|p]; try lia.
    destruct (Z.leb_spec e (emax - prec)); [reflexivity | unfold emax, prec in *; lia].
  - replace m with (2 ^ 53) by lia. unfold shr_fexp.
    change (Zdigits2 (2 ^ 53)) with 54.
    rewrite fexp_normal by lia.
    replace (54 + e - 53 - e) with 1 by lia.
    cbn [shr shr_record_of_loc iter_pos].
    change (shr_1 {| shr_m := 2 ^ 53; shr_r := false; shr_s := false |})
      with {| shr_m := 2 ^ 52; shr_r := false; shr_s := false |}.
    cbn [shr_m].
    change (2 ^ 52) with (Z.pos (Z.to_pos (2 ^ 52))) at 1.
    cbv iota beta.
    destruct (Z.leb_spec (e + 1) (emax - prec)); [reflexivity | unfold emax, prec in *; lia].
Qed.

(** Rounding a mantissa of 53 bits. *)
Lemma binary_round_aux_53 sx m e l :
  2 ^ 52 <= m < 2 ^ 53 -> -1074 <= e <= 970 ->
  binary_round_aux prec emax sx m e l
  = let m1 := round_nearest_even m l in
    if m1 <? 2 ^ 53 then S754_finite sx (Z.to_pos m1) e
    else S754_finite sx (Z.to_pos (2 ^ 52)) (e + 1).
Proof.
  intros Hm He. rewrite binary_round_aux_finish, shr_fexp_53 by lia.
  rewrite shr_m_record, loc_of_record. apply finish_53; [|exact He].
  destruct (round_nearest_even_cases m l) as [E|E]; rewrite E; lia.
Qed.

Lemma shr_1_pos p l :
  (1 < p)%positive ->
  shr_1 (shr_record_of_loc (Z.pos p) l)
  = {| shr_m := Z.pos p / 2; shr_r := Z.odd (Z.pos p);
       shr_s := match l with loc_Exact => false | _ => true end |}.
Proof.
  intros Hp. rewrite <- Z.div2_div.
  destruct p as [p|p|]; [| |lia]; now destruct l as [|[]].
Qed.

(** Rounding a mantissa of 54 bits. *)
Lemma binary_round_aux_54 sx m e l :
  2 ^ 53 <= m < 2 ^ 54 -> -1074 <= e <= 969 ->
  binary_round_aux prec emax sx m e l
  = let m1 := round_nearest_even (m / 2) (shifted m l) in
    if m1 <? 2 ^ 53 then S754_finite sx (Z.to_pos m1) (e + 1)
    else S754_finite sx (Z.to_pos (2 ^ 52)) (e + 2).
Proof.
  intros Hm He. destruct m as [|p|p]; try lia.
  assert (Hh : 2 ^ 52 <= Z.pos p / 2 < 2 ^ 53).
  { split; [apply Z.div_le_lower_bound | apply Z.div_lt_upper_bound]; lia. }
  rewrite binary_round_aux_finish. unfold shr_fexp. cbn [Zdigits2].
  rewrite (digits2_unique p 54) by exact Hm.
  rewrite fexp_normal by lia.
  replace (54 + e - 53 - e) with 1 by lia. cbn [shr iter_pos].
  rewrite shr_1_pos by lia.
  cbn [shr_m]. fold (shifted (Z.pos p) l).
  rewrite finish_53; [now replace (e + 1 + 1) with (e + 2) by lia | | lia].
  destruct (round_nearest_even_cases (Z.pos p / 2) (shifted (Z.pos p) l)) as [E|E];
    rewrite E; lia.
Qed.

(** [float(z)] for an integer of at most 53 bits: the integer itself,
    shifted to a mantissa of exactly 53 bits. *)
Lemma of_int_normal z :
  0 < z < 2 ^ 53 ->
  exists m k,
    of_int z = S754_finite false m (- k)
    /\ 0 <= k <= 52
    /\ Z.pos m = z * 2 ^ k
    /\ 2 ^ 52 <= Z.pos m < 2 ^ 53.
Proof.
  intros Hz. destruct z as [|p|p]; try lia.
  pose proof (digits2_bounds p) as [L U].
  remember (Z.pos (digits2_pos p)) as d eqn:Ed.
  assert (Hd1 : 1 <= d) by lia.
  assert (Hd : d <= 53).
  { destruct (Z.le_gt_cases d 53); trivial.
    assert (2 ^ 53 <= 2 ^ (d - 1)) by (apply Z.pow_le_mono_r; lia). lia. }
  unfold of_int, binary_normalize, binary_round. rewrite <- Ed.
  rewrite fexp_normal by lia. unfold shl_align.
  destruct (d + 0 - 53 - 0) as [|j|j] eqn:Ej; try lia.
  - assert (H : d = 53) by lia. rewrite H in *. change (53 - 1) with 52 in L.
    exists p, 0. rewrite binary_round_aux_53; [|lia|lia].
    cbn [round_nearest_even].
    destruct (Z.ltb_spec (Z.pos p) (2 ^ 53)); [|lia].
    repeat split; try lia.
  - assert (Hm : Z.pos (Pos.iter xO p j) = Z.pos p * 2 ^ (53 - d))
      by (rewrite iter_xO; f_equal; f_equal; lia).
    assert (Hb : 2 ^ 52 <= Z.pos (Pos.iter xO p j) < 2 ^ 53).
    { rewrite Hm. split.
      - replace 52 with ((d - 1) + (53 - d)) by lia.
        rewrite Z.pow_add_r by lia.
        apply Z.mul_le_mono_nonneg_r; [apply Z.pow_nonneg; lia | exact L].
      - replace 53 with (d + (53 - d)) at 2 by lia.
        rewrite Z.pow_add_r by lia.
        apply Z.mul_lt_mono_pos_r; [apply Z.pow_pos_nonneg; lia | exact U]. }
    exists (Pos.iter xO p j), (53 - d).
    rewrite binary_round_aux_53; [|exact Hb|lia].
    cbn [round_nearest_even].
    destruct (Z.ltb_spec (Z.pos (Pos.iter xO p j)) (2 ^ 53)); [|lia].
    replace (d + 0 - 53) with (- (53 - d)) by lia.
    repeat split; try lia.
Qed.

(** What [new_location] says of a remainder. *)
Lemma new_location_spec D r :
  0 < D -> 0 <= r < D ->
  match new_location D r with
  | loc_Exact => r = 0
  | loc_Inexact Lt => 0 < r /\ 2 * r < D
  | loc_Inexact Eq => 2 * r = D
  | loc_Inexact Gt => D < 2 * r
  end.
Proof.
  intros HD Hr. unfold new_location.
  destruct (Z.even D) eqn:Ev.
  - unfold new_location_even.
    destruct (Z.eqb_spec r 0) as [E|E]; [exact E|].
    destruct (Z.compare_spec (2 * r) D); lia.
  - unfold new_location_odd.
    destruct (Z.eqb_spec r 0) as [E|E]; [exact E|].
    assert (Od : Z.odd D = true) by (rewrite <- Z.negb_even, Ev; reflexivity).
    apply Z.odd_spec in Od as [k Hk].
    destruct (Z.compare_spec (2 * r + 1) D); lia.
Qed.

(** The division of two doubles with mantissas of 53 bits. *)
Lemma SFdiv_normal mx ex my ey :
  2 ^ 52 <= Z.pos mx < 2 ^ 53 -> 2 ^ 52 <= Z.pos my < 2 ^ 53 ->
  -900 <= ex - ey <= 900 ->
  SFdiv prec emax (S754_finite false mx ex) (S754_finite false my ey)
  = binary_round_aux prec emax false
      (Z.pos mx * 2 ^ 53 / Z.pos my) (ex - ey - 53)
      (new_location (Z.pos my) ((Z.pos mx * 2 ^ 53) mod Z.pos my)).
Proof.
  intros Hx Hy He. unfold SFdiv, SFdiv_core_binary. cbn [Zdigits2 xorb].
  rewrite (digits2_unique mx 53), (digits2_unique my 53) by assumption.
  rewrite fexp_normal by lia.
  replace (Z.min (53 + ex - (53 + ey) - 53) (ex - ey)) with (ex - ey - 53) by lia.
  replace (ex - ey - (ex - ey - 53)) with 53 by lia.
  rewrite Z.shiftl_mul_pow2 by lia.
  unfold Z.div, Z.modulo.
  destruct (Z.div_eucl (Z.pos mx * 2 ^ 53) (Z.pos my)) as [q r].
  reflexivity.
Qed.

Lemma shifted_cases m l :
  shifted m l
  = match Z.odd m, l with
    | false, loc_Exact => loc_Exact
    | false, _ => loc_Inexact Lt
    | true, loc_Exact => loc_Inexact Eq
    | true, _ => loc_Inexact Gt
    end.
Proof. unfold shifted. now destruct (Z.odd m), l as [|[]]. Qed.

(** A quotient of 53 or 54 bits, rounded: the result keeps 53 bits and
    is within one part in [2 ^ 53] of the quotient, and it is the
    quotient when the division is exact and no bit is shifted out. *)
Lemma round_quotient sx Q D e :
  0 < D -> 2 ^ 52 <= Q / D < 2 ^ 54 -> -1074 <= e <= 969 ->
  exists M t,
    binary_round_aux prec emax sx (Q / D) e (new_location D (Q mod D))
    = S754_finite sx M (e + t)
    /\ 0 <= t <= 2
    /\ (Q / D < 2 ^ 53 -> t <= 1)
    /\ 2 ^ 52 <= Z.pos M < 2 ^ 53
    /\ 2 * Z.abs (Z.pos M * 2 ^ t * D - Q) <= 2 ^ t * D
    /\ 2 ^ 53 * Z.abs (Z.pos M * 2 ^ t * D - Q) <= Q
    /\ (Q mod D = 0 -> Q / D < 2 ^ 53 \/ Z.even (Q / D) = true ->
        Z.pos M * 2 ^ t * D = Q).
Proof.
  intros HD Hq He.
  pose proof (Z.div_mod Q D ltac:(lia)) as EQ.
  pose proof (Z.mod_pos_bound Q D HD) as Hr.
  pose proof (new_location_spec D (Q mod D) HD Hr) as Hl.
  set (q := Q / D) in *. set (r := Q mod D) in *.
  set (l := new_location D r) in *.
  assert (HqD : 2 ^ 52 * D <= D * q) by nia.
  destruct (Z.lt_ge_cases q (2 ^ 53)) as [H53|H53].
  - rewrite binary_round_aux_53 by lia. cbv zeta.
    set (m1 := round_nearest_even q l).
    assert (Hm1 : (m1 = q /\ 2 * r <= D) \/ (m1 = q + 1 /\ D <= 2 * r)).
    { unfold m1. destruct l as [|[]]; cbn [round_nearest_even].
      - left. lia.
      - destruct (Z.even q); [left | right]; lia.
      - left. lia.
      - right. lia. }
    assert (Hex : r = 0 -> m1 = q) by (destruct Hm1 as [[? _]|[_ ?]]; lia).
    assert (Hb : 2 * Z.abs (m1 * D - Q) <= D).
    { destruct Hm1 as [[-> ?]|[-> ?]]; nia. }
    destruct (Z.ltb_spec m1 (2 ^ 53)) as [Hlt|Hge].
    + assert (Hp : Z.pos (Z.to_pos m1) = m1) by (apply Z2Pos.id; lia).
      exists (Z.to_pos m1), 0. rewrite Hp, Z.add_0_r.
      change (2 ^ 0) with 1. rewrite Z.mul_1_r.
      repeat split; try lia.
      all: try (intros Hr0 _; rewrite (Hex Hr0); nia).
    + assert (Em : m1 = 2 ^ 53) by lia.
      exists (Z.to_pos (2 ^ 52)), 1.
      change (Z.pos (Z.to_pos (2 ^ 52)) * 2 ^ 1) with (2 ^ 53). rewrite <- Em.
      change (2 ^ 1) with 2.
      repeat split; try lia.
      all: try (intros Hr0 _; rewrite (Hex Hr0); nia).
  - rewrite binary_round_aux_54 by lia. cbv zeta. rewrite shifted_cases.
    pose proof (Z.div_mod q 2 ltac:(lia)) as Eq2.
    pose proof (Zmod_odd q) as Ho.
    pose proof (Z.mod_pos_bound q 2 ltac:(lia)) as Hq2.
    set (h := q / 2) in *.
    set (m1 := round_nearest_even h _).
    assert (Hh : 2 ^ 52 <= h) by lia.
    assert (HqD' : 2 ^ 53 * D <= D * q) by nia.
    assert (Hm1 : (m1 = h /\ (Z.odd q = false \/ r = 0))
                  \/ (m1 = h + 1 /\ Z.odd q = true)).
    { unfold m1. destruct (Z.odd q), l as [|[]]; cbn [round_nearest_even];
        try (left; split; [reflexivity | lia]);
        try (right; split; [reflexivity | reflexivity]);
        destruct (Z.even h);
        try (left; split; [reflexivity | lia]);
        right; split; reflexivity. }
    assert (Hb : Z.abs (2 * m1 * D - Q) <= D).
    { destruct Hm1 as [[-> [Hodd | Hr0]]|[-> Hodd]]; try rewrite Hodd in Ho.
      - assert (q = 2 * h) by lia. nia.
      - destruct (Z.odd q); nia.
      - assert (q = 2 * h + 1) by lia. nia. }
    assert (Hex : r = 0 -> Z.even q = true -> 2 * m1 * D = Q).
    { intros Hr0 Hev. rewrite <- Z.negb_odd in Hev.
      destruct (Z.odd q) eqn:Hodd; [discriminate|].
      destruct Hm1 as [[-> _]|[_ ?]]; [|discriminate].
      assert (q = 2 * h) by lia. nia. }
    destruct (Z.ltb_spec m1 (2 ^ 53)) as [Hlt|Hge].
    + assert (Hp : Z.pos (Z.to_pos m1) = m1)
        by (apply Z2Pos.id; destruct Hm1 as [[-> _]|[-> _]]; lia).
      exists (Z.to_pos m1), 1. rewrite Hp.
      change (2 ^ 1) with 2.
      replace (m1 * 2 * D) with (2 * m1 * D) by ring.
      repeat split; try lia.
      all: try (destruct Hm1 as [[-> _]|[-> _]]; lia).
      all: try (intros Hr0 [Hc|Hc]; [lia | now apply Hex]).
    + assert (Em : m1 = 2 ^ 53) by (destruct Hm1 as [[? _]|[? _]]; lia).
      exists (Z.to_pos (2 ^ 52)), 2.
      change (Z.pos (Z.to_pos (2 ^ 52)) * 2 ^ 2) with (2 * 2 ^ 53). rewrite <- Em.
      change (2 ^ 2) with 4.
      repeat split; try lia.
      all: try (intros Hr0 [Hc|Hc]; [lia | now apply Hex]).
Qed.

(** The quotient of two integers as doubles: a double of 53 bits
    within one part in [2 ^ 53] of the exact quotient, and the exact
    quotient when the divisor divides the dividend. *)
Lemma SFdiv_ints s n :
  0 < n < 2 ^ 53 -> 0 < s <= 5 * n -> s < 2 ^ 53 ->
  exists M K,
    SFdiv prec emax (of_int s) (of_int n) = S754_finite false M (- K)
    /\ 0 < K
    /\ 2 ^ 52 <= Z.pos M < 2 ^ 53
    /\ 2 ^ 53 * Z.abs (Z.pos M * n - s * 2 ^ K) <= s * 2 ^ K
    /\ ((n | s) -> Z.pos M * n = s * 2 ^ K).
Proof.
  intros Hn Hs Hs53.
  destruct (of_int_normal s) as (ms & ks & Es & Hks & Hms & Bs); [lia|].
  destruct (of_int_normal n) as (mn & kn & En & Hkn & Hmn & Bn); [lia|].
  rewrite Es, En, SFdiv_normal by (assumption || lia).
  (* the exponents are close to each other *)
  assert (Hk : kn - ks <= 3).
  { destruct (Z.le_gt_cases (kn - ks) 3); trivial. exfalso.
    assert (P : 2 ^ kn = 2 ^ ks * 2 ^ (kn - ks))
      by (rewrite <- Z.pow_add_r by lia; f_equal; lia).
    assert (16 <= 2 ^ (kn - ks))
      by (change 16 with (2 ^ 4); apply Z.pow_le_mono_r; lia).
    assert (0 < 2 ^ ks) by (apply Z.pow_pos_nonneg; lia).
    nia. }
  set (Q := Z.pos ms * 2 ^ 53). set (D := Z.pos mn).
  assert (HD : 0 < D) by (unfold D; lia).
  assert (Hq : 2 ^ 52 <= Q / D < 2 ^ 54).
  { split.
    - apply Z.div_le_lower_bound; [exact HD | unfold Q, D; lia].
    - apply Z.div_lt_upper_bound; [exact HD | unfold Q, D; lia]. }
  destruct (round_quotient false Q D (- ks - - kn - 53) HD Hq ltac:(lia))
    as (M & t & E & Ht & _ & BM & _ & Bound & Exact).
  exists M, (ks + 53 - kn - t).
  rewrite E.
  replace (- ks - - kn - 53 + t) with (- (ks + 53 - kn - t)) by lia.
  set (K := ks + 53 - kn - t) in *.
  assert (HK : 0 < K) by (unfold K; lia).
  set (A := 2 ^ (kn + t)).
  assert (HA : 0 < A) by (apply Z.pow_pos_nonneg; lia).
  assert (E1 : Z.pos M * 2 ^ t * D = A * (Z.pos M * n)).
  { unfold D, A. rewrite Hmn, Z.pow_add_r by lia. ring. }
  assert (E2 : Q = A * (s * 2 ^ K)).
  { unfold Q, A. rewrite Hms.
    replace (s * 2 ^ ks * 2 ^ 53) with (s * (2 ^ ks * 2 ^ 53)) by ring.
    rewrite <- Z.pow_add_r by lia.
    replace (2 ^ (kn + t) * (s * 2 ^ K)) with (s * (2 ^ (kn + t) * 2 ^ K)) by ring.
    rewrite <- Z.pow_add_r by lia.
    do 2 f_equal. unfold K. lia. }
  rewrite E1, E2 in Bound. rewrite <- Z.mul_sub_distr_l in Bound.
  rewrite Z.abs_mul, (Z.abs_eq A) in Bound by lia.
  split; [reflexivity|]. split; [exact HK|]. split; [exact BM|]. split.
  - apply (Z.mul_le_mono_pos_l _ _ A HA).
    replace (A * (2 ^ 53 * Z.abs (Z.pos M * n - s * 2 ^ K)))
      with (2 ^ 53 * (A * Z.abs (Z.pos M * n - s * 2 ^ K))) by ring.
    exact Bound.
  - intros [c Hc].
    assert (Hj : 0 < ks + 53 - kn) by lia.
    assert (Eq : Q = (c * 2 ^ (ks + 53 - kn)) * D).
    { unfold Q, D. rewrite Hms, Hmn, Hc.
      replace (c * n * 2 ^ ks * 2 ^ 53) with (c * n * (2 ^ ks * 2 ^ 53)) by ring.
      rewrite <- Z.pow_add_r by lia.
      replace (c * 2 ^ (ks + 53 - kn) * (n * 2 ^ kn))
        with (c * n * (2 ^ (ks + 53 - kn) * 2 ^ kn)) by ring.
      rewrite <- Z.pow_add_r by lia.
      do 2 f_equal. lia. }
    assert (Hmod : Q mod D = 0) by (rewrite Eq; apply Z.mod_mul; lia).
    assert (Hev : Z.even (Q / D) = true).
    { rewrite Eq, Z.div_mul by lia.
      replace (ks + 53 - kn) with (Z.succ (ks + 53 - kn - 1)) by lia.
      rewrite Z.pow_succ_r by lia.
      rewrite Z.even_mul, Z.even_mul. cbn [Z.even]. apply orb_true_r. }
    specialize (Exact Hmod (or_intror Hev)).
    rewrite E1, E2 in Exact.
    apply (Z.mul_reg_l _ _ A); [lia | exact Exact].
Qed.

Lemma pow2_le a b : 0 <= a <= b -> 2 ^ a <= 2 ^ b.
Proof. intros H. apply Z.pow_le_mono_r; lia. Qed.

(** Comparing two positive doubles. *)
Lemma SFltb_finite m1 e1 m2 e2 :
  SFltb (S754_finite false m1 e1) (S754_finite false m2 e2)
  = match e1 ?= e2 with
    | Lt => true
    | Gt => false
    | Eq => Z.pos m1 <? Z.pos m2
    end.
Proof.
  unfold SFltb, SFcompare. now destruct (e1 ?= e2).
Qed.

Lemma of_int_3 : of_int 3 = S754_finite false (Z.to_pos (3 * 2 ^ 51)) (-51).
Proof. reflexivity. Qed.

(** [avg_sat < 3] in binary64 is [sum < 3 * n]. *)
Lemma mean_below_3_spec s n :
  0 < n < 2 ^ 50 -> 0 < s <= 5 * n ->
  mean_below_3 s n = (s <? 3 * n).
Proof.
  intros Hn Hs. unfold mean_below_3.
  destruct (SFdiv_ints s n) as (M & K & -> & HK & BM & Bound & _); try lia.
  rewrite of_int_3, SFltb_finite.
  rewrite Z2Pos.id by lia.
  assert (Hlo : 2 ^ 52 * n <= Z.pos M * n)
    by (apply Z.mul_le_mono_nonneg_r; lia).
  assert (Hhi : Z.pos M * n < 2 ^ 53 * n)
    by (apply Z.mul_lt_mono_pos_r; lia).
  destruct (Z.compare_spec (- K) (-51)) as [E|L|G].
  - assert (EK : K = 51) by lia. rewrite EK in *. clear E EK.
    destruct (Z.ltb_spec (Z.pos M) (3 * 2 ^ 51)) as [L|G];
      destruct (Z.ltb_spec s (3 * n)); trivial; exfalso.
    + assert (Z.pos M * n <= (3 * 2 ^ 51 - 1) * n)
        by (apply Z.mul_le_mono_nonneg_r; lia).
      lia.
    + assert (3 * 2 ^ 51 * n <= Z.pos M * n)
        by (apply Z.mul_le_mono_nonneg_r; lia).
      lia.
  - assert (H52 : 2 ^ 52 <= 2 ^ K) by (apply pow2_le; lia).
    destruct (Z.ltb_spec s (3 * n)); trivial; exfalso.
    assert (s * 2 ^ 52 <= s * 2 ^ K) by (apply Z.mul_le_mono_nonneg_l; lia).
    lia.
  - assert (H50 : 2 ^ K <= 2 ^ 50) by (apply pow2_le; lia).
    destruct (Z.ltb_spec s (3 * n)); trivial; exfalso.
    assert (s * 2 ^ K <= s * 2 ^ 50) by (apply Z.mul_le_mono_nonneg_l; lia).
    lia.
Qed.

(** Products. *)

Lemma iter_pos_nat {A : Type} (f : A -> A) p x :
  iter_pos f p x = Nat.iter (Pos.to_nat p) f x.
Proof.
  revert x. induction p as [p IH|p IH|]; intros x; cbn [iter_pos].
  - rewrite !IH, Pos2Nat.inj_xI.
    replace (S (2 * Pos.to_nat p)) with (Pos.to_nat p + S (Pos.to_nat p))%nat by lia.
    now rewrite Nat.iter_add, Nat.iter_succ_r.
  - rewrite !IH, Pos2Nat.inj_xO.
    replace (2 * Pos.to_nat p)%nat with (Pos.to_nat p + Pos.to_nat p)%nat by lia.
    now rewrite Nat.iter_add.
  - reflexivity.
Qed.

Lemma shr_1_nonneg m r s :
  0 <= m ->
  shr_1 {| shr_m := m; shr_r := r; shr_s := s |}
  = {| shr_m := m / 2; shr_r := Z.odd m; shr_s := r || s |}.
Proof.
  intros Hm. rewrite <- Z.div2_div.
  destruct m as [|[p|p|]|p]; try reflexivity. lia.
Qed.

(** Shifting [k] times to the right: the quotient by [2 ^ k], the
    last bit shifted out, and whether a bit before it was set. *)
Lemma shr_iter (k : nat) m :
  0 <= m ->
  Nat.iter (S k) shr_1 {| shr_m := m; shr_r := false; shr_s := false |}
  = {| shr_m := m / 2 ^ Z.of_nat (S k);
       shr_r := Z.odd (m / 2 ^ Z.of_nat k);
       shr_s := negb (m mod 2 ^ Z.of_nat k =? 0) |}.
Proof.
  intros Hm. induction k as [|k IH].
  - cbn [Nat.iter]. rewrite shr_1_nonneg by exact Hm.
    change (2 ^ Z.of_nat 1) with 2. change (2 ^ Z.of_nat 0) with 1.
    now rewrite Z.div_1_r, Z.mod_1_r.
  - rewrite Nat.iter_succ, IH.
    assert (Hp : 0 < 2 ^ Z.of_nat k) by (apply Z.pow_pos_nonneg; lia).
    assert (Hp' : 0 < 2 ^ Z.of_nat (S k)) by (apply Z.pow_pos_nonneg; lia).
    assert (E2 : 2 ^ Z.of_nat (S k) = 2 ^ Z.of_nat k * 2)
      by (rewrite Nat2Z.inj_succ, Z.pow_succ_r by lia; ring).
    rewrite shr_1_nonneg by (apply Z.div_pos; lia).
    f_equal.
    + rewrite Z.div_div by lia. f_equal.
      rewrite (Nat2Z.inj_succ (S k)), Z.pow_succ_r by lia. ring.
    + rewrite E2, Z.rem_mul_r by lia.
      pose proof (Zmod_odd (m / 2 ^ Z.of_nat k)) as Ho.
      pose proof (Z.mod_pos_bound m (2 ^ Z.of_nat k) Hp) as Hb.
      destruct (Z.odd (m / 2 ^ Z.of_nat k)); rewrite Ho.
      * cbn [orb]. symmetry. apply negb_true_iff, Z.eqb_neq. lia.
      * cbn [orb]. now rewrite Z.mul_0_r, Z.add_0_r.
Qed.

Lemma shr_iter_location (k : nat) m :
  0 <= m ->
  loc_of_shr_record
    (Nat.iter (S k) shr_1 {| shr_m := m; shr_r := false; shr_s := false |})
  = new_location (2 ^ Z.of_nat (S k)) (m mod 2 ^ Z.of_nat (S k)).
Proof.
  intros Hm. rewrite shr_iter by exact Hm.
  assert (Hp : 0 < 2 ^ Z.of_nat k) by (apply Z.pow_pos_nonneg; lia).
  assert (E2 : 2 ^ Z.of_nat (S k) = 2 ^ Z.of_nat k * 2)
    by (rewrite Nat2Z.inj_succ, Z.pow_succ_r by lia; ring).
  unfold new_location. rewrite Z.even_pow by lia. cbn [Z.even].
  unfold new_location_even.
  assert (Er : m mod 2 ^ Z.of_nat (S k)
               = m mod 2 ^ Z.of_nat k
                 + 2 ^ Z.of_nat k * ((m / 2 ^ Z.of_nat k) mod 2))
    by (rewrite E2; apply Z.rem_mul_r; lia).
  rewrite Er.
  pose proof (Zmod_odd (m / 2 ^ Z.of_nat k)) as Ho.
  pose proof (Z.mod_pos_bound m (2 ^ Z.of_nat k) Hp) as Hb.
  destruct (Z.odd (m / 2 ^ Z.of_nat k)); rewrite Ho;
    destruct (Z.eqb_spec (m mod 2 ^ Z.of_nat k) 0) as [E0|E0];
    cbn [negb loc_of_shr_record];
    match goal with
    | |- _ = (if ?a =? 0 then _ else loc_Inexact (?x ?= ?y)) =>
        destruct (Z.eqb_spec a 0); destruct (Z.compare_spec x y)
    end; trivial; lia.
Qed.

(** Rounding a mantissa of [53 + k] bits is rounding its quotient by
    [2 ^ k], with the remainder for location. *)
Lemma binary_round_aux_wide sx P e (k : nat) :
  2 ^ (52 + Z.of_nat (S k)) <= P < 2 ^ (53 + Z.of_nat (S k)) ->
  -1074 <= e ->
  binary_round_aux prec emax sx P e loc_Exact
  = binary_round_aux prec emax sx (P / 2 ^ Z.of_nat (S k)) (e + Z.of_nat (S k))
      (new_location (2 ^ Z.of_nat (S k)) (P mod 2 ^ Z.of_nat (S k))).
Proof.
  intros HP He.
  assert (Hp : 0 < 2 ^ Z.of_nat (S k)) by (apply Z.pow_pos_nonneg; lia).
  assert (H52 : 2 ^ 52 <= P / 2 ^ Z.of_nat (S k) < 2 ^ 53).
  { rewrite !Z.pow_add_r in HP by lia. split.
    - apply Z.div_le_lower_bound; lia.
    - apply Z.div_lt_upper_bound; lia. }
  rewrite (binary_round_aux_finish sx (P / _)), shr_fexp_53 by lia.
  rewrite shr_m_record, loc_of_record.
  rewrite binary_round_aux_finish. unfold shr_fexp.
  assert (0 < P) by (assert (0 < 2 ^ (52 + Z.of_nat (S k))) by (apply Z.pow_pos_nonneg; lia); lia).
  destruct P as [|p|p]; try lia.
  cbn [Zdigits2]. rewrite (digits2_unique p (53 + Z.of_nat (S k))).
  2:{ now replace (53 + Z.of_nat (S k) - 1) with (52 + Z.of_nat (S k)) by lia. }
  rewrite fexp_normal by lia.
  replace (53 + Z.of_nat (S k) + e - 53 - e) with (Z.pos (Pos.of_succ_nat k)) by lia.
  cbn [shr shr_record_of_loc]. rewrite iter_pos_nat, SuccNat2Pos.id_succ.
  rewrite shr_iter_location by lia.
  rewrite shr_iter by lia. cbn [shr_m].
  now rewrite Zpos_P_of_succ_nat, <- Nat2Z.inj_succ.
Qed.

(** The product of two doubles with mantissas of 53 bits: a double of
    53 bits within half a unit in its last place of the exact product. *)
Lemma SFmul_normal mx ex my ey :
  2 ^ 52 <= Z.pos mx < 2 ^ 53 -> 2 ^ 52 <= Z.pos my < 2 ^ 53 ->
  -500 <= ex + ey <= 500 ->
  exists M J,
    SFmul prec emax (S754_finite false mx ex) (S754_finite false my ey)
    = S754_finite false M (ex + ey + J)
    /\ 52 <= J <= 54
    /\ 2 ^ 52 <= Z.pos M < 2 ^ 53
    /\ 2 * Z.abs (Z.pos M * 2 ^ J - Z.pos mx * Z.pos my) <= 2 ^ J.
Proof.
  intros Hx Hy He. cbn [SFmul xorb]. rewrite Pos2Z.inj_mul.
  set (P := Z.pos mx * Z.pos my).
  assert (HP : 2 ^ 104 <= P < 2 ^ 106).
  { unfold P. change (2 ^ 104) with (2 ^ 52 * 2 ^ 52).
    change (2 ^ 106) with (2 ^ 53 * 2 ^ 53). split.
    - apply Z.mul_le_mono_nonneg; lia.
    - apply Z.mul_lt_mono_nonneg; lia. }
  assert (Hk : exists k : nat, (51 <= k <= 52)%nat
                 /\ 2 ^ (52 + Z.of_nat (S k)) <= P < 2 ^ (53 + Z.of_nat (S k))).
  { destruct (Z.lt_ge_cases P (2 ^ 105)).
    - exists 51%nat. split; [lia|].
      change (2 ^ (52 + Z.of_nat 52)) with (2 ^ 104).
      change (2 ^ (53 + Z.of_nat 52)) with (2 ^ 105). lia.
    - exists 52%nat. split; [lia|].
      change (2 ^ (52 + Z.of_nat 53)) with (2 ^ 105).
      change (2 ^ (53 + Z.of_nat 53)) with (2 ^ 106). lia. }
  destruct Hk as (k & Hk & Bk).
  rewrite (binary_round_aux_wide false P (ex + ey) k) by (assumption || lia).
  set (D := 2 ^ Z.of_nat (S k)).
  assert (HD : 0 < D) by (apply Z.pow_pos_nonneg; lia).
  assert (Hq : 2 ^ 52 <= P / D < 2 ^ 54).
  { rewrite !Z.pow_add_r in Bk by lia. fold D in Bk. split.
    - apply Z.div_le_lower_bound; lia.
    - apply Z.div_lt_upper_bound; lia. }
  destruct (round_quotient false P D (ex + ey + Z.of_nat (S k)) HD Hq ltac:(lia))
    as (M & t & E & Ht & Ht1 & BM & Half & _ & _).
  assert (P / D < 2 ^ 53).
  { rewrite !Z.pow_add_r in Bk by lia. fold D in Bk.
    apply Z.div_lt_upper_bound; lia. }
  exists M, (Z.of_nat (S k) + t). rewrite E.
  split; [f_equal; lia|]. split; [lia|]. split; [exact BM|].
  rewrite Z.pow_add_r by lia. fold D.
  replace (Z.pos M * (D * 2 ^ t)) with (Z.pos M * 2 ^ t * D) by ring.
  now rewrite (Z.mul_comm D).
Qed.

(** Two doubles of 53 bits compare as their values do. *)
Lemma compare_scaled M J M' J' :
  2 ^ 52 <= M < 2 ^ 53 -> 2 ^ 52 <= M' < 2 ^ 53 -> 0 <= J -> 0 <= J' ->
  match J ?= J' with
  | Lt => true
  | Gt => false
  | Eq => M <? M'
  end = (M * 2 ^ J <? M' * 2 ^ J').
Proof.
  intros HM HM' HJ HJ'.
  assert (Hp : 0 < 2 ^ J) by (apply Z.pow_pos_nonneg; lia).
  assert (Hp' : 0 < 2 ^ J') by (apply Z.pow_pos_nonneg; lia).
  assert (U : M * 2 ^ J < 2 ^ 53 * 2 ^ J) by (apply Z.mul_lt_mono_pos_r; lia).
  assert (L : 2 ^ 52 * 2 ^ J <= M * 2 ^ J) by (apply Z.mul_le_mono_nonneg_r; lia).
  assert (U' : M' * 2 ^ J' < 2 ^ 53 * 2 ^ J') by (apply Z.mul_lt_mono_pos_r; lia).
  assert (L' : 2 ^ 52 * 2 ^ J' <= M' * 2 ^ J') by (apply Z.mul_le_mono_nonneg_r; lia).
  destruct (Z.compare_spec J J') as [E|E|E].
  - subst J'. destruct (Z.ltb_spec M M') as [H|H];
      destruct (Z.ltb_spec (M * 2 ^ J) (M' * 2 ^ J)) as [H'|H']; trivial; exfalso.
    + assert (M * 2 ^ J < M' * 2 ^ J) by (apply Z.mul_lt_mono_pos_r; lia). lia.
    + assert (M' * 2 ^ J <= M * 2 ^ J) by (apply Z.mul_le_mono_nonneg_r; lia). lia.
  - assert (2 * 2 ^ J <= 2 ^ J').
    { rewrite <- Z.pow_succ_r by lia. apply Z.pow_le_mono_r; lia. }
    destruct (Z.ltb_spec (M * 2 ^ J) (M' * 2 ^ J')); trivial; lia.
  - assert (2 * 2 ^ J' <= 2 ^ J).
    { rewrite <- Z.pow_succ_r by lia. apply Z.pow_le_mono_r; lia. }
    destruct (Z.ltb_spec (M * 2 ^ J) (M' * 2 ^ J')); trivial; lia.
Qed.

(** [count > len_df * 0.3] in binary64 is [3 * len_df < 10 * count]. *)
Lemma over_30_percent_spec c n :
  0 <= n < 2 ^ 50 -> 0 <= c < 2 ^ 53 ->
  over_30_percent c n = (3 * n <? 10 * c).
Proof.
  intros Hn Hc. unfold over_30_percent.
  destruct (Z.eq_dec n 0) as [->|Hn0].
  { destruct (Z.eq_dec c 0) as [->|Hc0]; [reflexivity|].
    destruct (of_int_normal c) as (mc & kc & -> & _); [lia|].
    replace (3 * 0 <? 10 * c) with true by (symmetry; apply Z.ltb_lt; lia).
    reflexivity. }
  destruct (of_int_normal n) as (mn & kn & -> & Hkn & Hmn & Bn); [lia|].
  unfold lit_0_3.
  destruct (SFmul_normal mn (- kn) 5404319552844595 (-54))
    as (M & J & -> & HJ & BM & Half); try lia.
  destruct (Z.eq_dec c 0) as [->|Hc0].
  { replace (3 * n <? 10 * 0) with false by (symmetry; apply Z.ltb_ge; lia).
    reflexivity. }
  destruct (of_int_normal c) as (mc & kc & -> & Hkc & Hmc & Bc); [lia|].
  rewrite SFltb_finite.
  (* the length takes at most 50 bits *)
  assert (HT : 8 <= 2 ^ kn).
  { destruct (Z.le_gt_cases 3 kn) as [H3|H3].
    - change 8 with (2 ^ 3). apply Z.pow_le_mono_r; lia.
    - exfalso. assert (2 ^ kn <= 2 ^ 2) by (apply Z.pow_le_mono_r; lia).
      change (2 ^ 2) with 4 in *.
      assert (n * 2 ^ kn <= n * 4) by (apply Z.mul_le_mono_nonneg_l; lia).
      lia. }
  assert (Hkn3 : 3 <= kn).
  { destruct (Z.le_gt_cases 3 kn) as [H3|H3]; trivial. exfalso.
    assert (2 ^ kn <= 2 ^ 2) by (apply Z.pow_le_mono_r; lia).
    change (2 ^ 2) with 4 in *. lia. }
  replace (- kn + -54 + J ?= - kc) with (J ?= kn + 54 - kc)
    by (rewrite (Z.compare_sub J), (Z.compare_sub (- kn + -54 + J)); f_equal; lia).
  rewrite compare_scaled by lia.
  (* both sides, scaled by [2 ^ (kn + 54)] *)
  set (a := n * 2 ^ kn) in *. set (b := c * 2 ^ kn).
  assert (Eb : Z.pos mc * 2 ^ (kn + 54 - kc) = b * 2 ^ 54).
  { rewrite Hmc. unfold b.
    replace (c * 2 ^ kc * 2 ^ (kn + 54 - kc))
      with (c * (2 ^ kc * 2 ^ (kn + 54 - kc))) by ring.
    rewrite <- Z.pow_add_r by lia.
    replace (kc + (kn + 54 - kc)) with (kn + 54) by lia.
    rewrite Z.pow_add_r by lia. ring. }
  rewrite Eb. rewrite Hmn in Half.
  assert (Hab : (3 * n < 10 * c -> 3 * a + 2 ^ kn <= 10 * b)
                /\ (10 * c <= 3 * n -> 10 * b <= 3 * a)).
  { unfold a, b. split; intros H.
    - assert ((3 * n + 1) * 2 ^ kn <= 10 * c * 2 ^ kn)
        by (apply Z.mul_le_mono_nonneg_r; lia).
      lia.
    - assert (10 * c * 2 ^ kn <= 3 * n * 2 ^ kn)
        by (apply Z.mul_le_mono_nonneg_r; lia).
      lia. }
  destruct Hab as [Hlt Hge].
  assert (HJ3 : J = 52 \/ J = 53 \/ J = 54) by lia.
  destruct (Z.ltb_spec (3 * n) (10 * c)) as [H|H].
  - specialize (Hlt H). apply Z.ltb_lt.
    destruct HJ3 as [-> | [-> | ->]]; lia.
  - specialize (Hge H). apply Z.ltb_ge.
    destruct HJ3 as [-> | [-> | ->]]; lia.
Qed.

Lemma quotient_close (M s n P : Z) (p pn : positive) :
  Z.pos p = P -> Z.pos pn = n -> 0 < s ->
  2 ^ 53 * Z.abs (M * n - s * P) <= s * P ->
  (Qabs ((M # p) - inject_Z s / inject_Z n)
   <= inject_Z s / inject_Z n * (1 # 2 ^ 53))%Q.
Proof.
  intros Hp Hn Hs B. subst n P.
  unfold Qle, Qminus, Qplus, Qopp, Qabs, Qdiv, Qmult, Qinv, inject_Z.
  cbn [Qnum Qden]. rewrite !Pos2Z.inj_mul, !Z.mul_1_r, !Z.mul_1_l.
  replace (M * Z.pos pn + - s * Z.pos p) with (M * Z.pos pn - s * Z.pos p) by ring.
  change (Z.pos (2 ^ 53)) with (2 ^ 53).
  replace (Z.abs (M * Z.pos pn - s * Z.pos p) * (Z.pos pn * 2 ^ 53))
    with (Z.pos pn * (2 ^ 53 * Z.abs (M * Z.pos pn - s * Z.pos p))) by ring.
  replace (s * (Z.pos p * Z.pos pn)) with (Z.pos pn * (s * Z.pos p)) by ring.
  apply Z.mul_le_mono_nonneg_l; [lia | exact B].
Qed.

Lemma quotient_exact (M s n P : Z) (p pn : positive) :
  Z.pos p = P -> Z.pos pn = n ->
  M * n = s * P ->
  ((M # p) == inject_Z s / inject_Z n)%Q.
Proof.
  intros Hp Hn E. subst n P.
  unfold Qeq, Qdiv, Qmult, Qinv, inject_Z. cbn [Qnum Qden].
  rewrite !Pos2Z.inj_mul, !Z.mul_1_r, ?Z.mul_1_l. lia.
Qed.

(** The quotient of two integers in binary64, as a rational. *)
Lemma SFdiv_rounds s n :
  0 < n < 2 ^ 50 -> n <= s <= 5 * n ->
  exists v,
    value (SFdiv prec emax (of_int s) (of_int n)) = Some v
    /\ (Qabs (v - inject_Z s / inject_Z n)
        <= inject_Z s / inject_Z n * (1 # 2 ^ 53))%Q
    /\ ((n | s) -> (v == inject_Z s / inject_Z n)%Q).
Proof.
  intros Hn Hs.
  destruct (SFdiv_ints s n) as (M & K & -> & HK & BM & Bound & Exact); try lia.
  assert (HP : 0 < 2 ^ K) by (apply Z.pow_pos_nonneg; lia).
  cbn [value]. destruct (Z.ltb_spec (- K) 0); [|lia].
  rewrite Z.opp_involutive.
  eexists. split; [reflexivity|]. split.
  - apply (quotient_close _ s n (2 ^ K) _ (Z.to_pos n));
      try (apply Z2Pos.id; lia); [lia | exact Bound].
  - intros Hd. apply (quotient_exact _ s n (2 ^ K) _ (Z.to_pos n));
      try (apply Z2Pos.id; lia). now apply Exact.
Qed.

Lemma satisfaction_sum_bounds df :
  (forall r, In r df -> 1 <= satisfaction r <= 5) ->
  Z.of_nat (length df) <= Stated.satisfaction_sum df <= 5 * Z.of_nat (length df).
Proof.
  intros Hr. unfold Stated.satisfaction_sum.
  pose proof (sum_bounds 1 5 (map satisfaction df)) as B.
  rewrite length_map in B. rewrite <- (Z.mul_1_l (Z.of_nat (length df))) at 1.
  apply B. intros x Hx. apply in_map_iff in Hx as (r & <- & Hin). now apply Hr.
Qed.

(** On a collection of fewer than [2 ^ 50] responses with
    satisfactions from 1 to 5, the tests of the insights come out in
    binary64 as they do in exact arithmetic. *)
Lemma findings_binary64 df :
  df <> [] ->
  (forall r, In r df -> 1 <= satisfaction r <= 5) ->
  Z.of_nat (length df) < 2 ^ 50 ->
  findings df = Insights.findings (Insights.analyse df).
Proof.
  intros Hne Hr Hlen.
  assert (Hn : 0 < Z.of_nat (length df))
    by (destruct df; [congruence | simpl; lia]).
  pose proof (satisfaction_sum_bounds df Hr) as Hs.
  unfold findings. cbn [Insights.findings Insights.analyse].
  assert (Hover : forall column,
             over_30_percent (Insights.count_yes column df) (Z.of_nat (length df))
             = Insights.Qltb (inject_Z (Z.of_nat (length df)) * (3 # 10))
                             (inject_Z (Insights.count_yes column df))).
  { intros column. pose proof (count_yes_bounds column df) as Hc.
    rewrite over_30_percent_spec by lia.
    apply Bool.eq_iff_eq_true. rewrite over_threshold_iff. apply Z.ltb_lt. }
  rewrite !Hover. f_equal.
  f_equal. change (SFltb (mean (map satisfaction df)) (of_int 3))
    with (mean_below_3 (Insights.total (map satisfaction df))
            (Z.of_nat (length (map satisfaction df)))).
  rewrite total_sum, length_map, mean_below_3_spec by lia.
  destruct (mean_lt_iff (map satisfaction df) 3) as (m & -> & _ & H).
  { destruct df; [congruence | discriminate]. }
  change (inject_Z 3) with 3%Q in H.
  apply Bool.eq_iff_eq_true. rewrite H, total_sum, length_map. apply Z.ltb_lt.
Qed.

End Rounding.

(** * The dashboard as a run of the page *)


Lemma council_in_range k r :
  In r (Sample.council k) -> 1 <= satisfaction r <= 5.
Proof.
  unfold Sample.council. intros H. apply in_app_or in H.
  destruct H as [H|H]; apply repeat_spec in H; subst r; simpl; lia.
Qed.

(** C6, as amended: a non-empty collection whose satisfactions are all
    from 1 to 5 is rendered, and the insights of the page hold the low
    satisfaction finding exactly when the mean satisfaction is below 3,
    the financial support finding exactly when the fraction of
    responses with [financial_challenges = "Yes"] is above 0.3, and the
    academic balance finding exactly when the fraction with
    [academic_challenges = "Yes"] is above 0.3; so with 4 of 10
    responses reporting financial challenges the financial finding is
    there, and with 2 of 10 it is not.  With fewer than [2 ^ 50]
    responses these are the findings the tests give in binary64. *)
Theorem findings_follow_thresholds (df : list response) :
  df <> [] ->
  (forall r, In r df -> 1 <= satisfaction r <= 5) ->
  exists f drawn,
    Chart.render df = Chart.page f drawn
    /\ (Z.of_nat (length df) < 2 ^ 50 ->
        Binary64.findings df = Insights.findings f)
    /\ let found g := In g (Insights.findings f) in
       let yes column := Stated.proportion df (Stated.reports_yes column) in
       (found Insights.low_satisfaction <-> (Stated.meanSatisfaction df < 3)%Q)
       /\ (found Insights.financial_support_needed
           <-> (3 # 10 < yes financial_challenges)%Q)
       /\ (found Insights.academic_balance_concerns
           <-> (3 # 10 < yes academic_challenges)%Q)
       /\ (length df = 10%nat ->
           length (filter (Stated.reports_yes financial_challenges) df) = 4%nat ->
           found Insights.financial_support_needed)
       /\ (length df = 10%nat ->
           length (filter (Stated.reports_yes financial_challenges) df) = 2%nat ->
           ~ found Insights.financial_support_needed).
Proof.
  intros Hne Hr.
  destruct (render_in_range df Hne Hr) as (drawn & E & _).
  exists (Insights.analyse df), drawn.
  split; [exact E|]. split.
  - intros Hlen. now apply findings_binary64.
  - now apply thresholds_of_analyse.
Qed.

Lemma findings_follow_thresholds_witness :
  (exists f drawn,
      Chart.render (Sample.council 4) = Chart.page f drawn
      /\ In Insights.financial_support_needed (Insights.findings f))
  /\ (exists f drawn,
         Chart.render (Sample.council 2) = Chart.page f drawn
         /\ ~ In Insights.financial_support_needed (Insights.findings f)).
Proof.
  split.
  - destruct (findings_follow_thresholds (Sample.council 4))
      as (f & drawn & E & _ & _ & _ & _ & H4 & _).
    + discriminate.
    + apply council_in_range.
    + exists f, drawn. split; [exact E | apply H4; reflexivity].
  - destruct (findings_follow_thresholds (Sample.council 2))
      as (f & drawn & E & _ & _ & _ & _ & _ & H2).
    + discriminate.
    + apply council_in_range.
    + exists f, drawn. split; [exact E | apply H2; reflexivity].
Defined.

(** C6 as stated fails on a collection with a satisfaction outside
    1..5: the one response of [Visit.out_of_range] reports financial
    challenges, a fraction of 1, and yet no insight is shown, the run
    ending with the [KeyError] of the satisfaction chart. *)
Lemma findings_lost_out_of_range :
  Visit.out_of_range <> []
  /\ (3 # 10 < Stated.proportion Visit.out_of_range
                 (Stated.reports_yes financial_challenges))%Q
  /\ (exists shown, Chart.render Visit.out_of_range = Chart.key_error shown 7)
  /\ forall f drawn, Chart.render Visit.out_of_range <> Chart.page f drawn.
Proof.
  split; [discriminate|]. split; [reflexivity|]. split.
  - eexists. reflexivity.
  - intros f drawn. discriminate.
Qed.

(** C7, as amended: with no responses the dashboard shows its notice
    and computes no average.  For a non-empty collection of fewer than
    [2 ^ 50] responses with satisfactions from 1 to 5 the average is
    the arithmetic mean of the satisfaction fields rounded to a double:
    a finite double within one part in [2 ^ 53] of the mean, and the
    mean itself when the number of responses divides the sum of the
    satisfactions, as in 3.0 for the values 5, 4, 3, 2, 1. *)
Theorem avg_sat_rounds_mean (df : list response) :
  (df = [] ->
   Binary64.avg_sat df = None /\ Chart.render df = Chart.no_responses_yet)
  /\ (df <> [] ->
      (forall r, In r df -> 1 <= satisfaction r <= 5) ->
      Z.of_nat (length df) < 2 ^ 50 ->
      exists x v,
        Binary64.avg_sat df = Some x
        /\ Binary64.value x = Some v
        /\ (Qabs (v - Stated.meanSatisfaction df)
            <= Stated.meanSatisfaction df * (1 # 2 ^ 53))%Q
        /\ ((Z.of_nat (length df) | Stated.satisfaction_sum df) ->
            (v == Stated.meanSatisfaction df)%Q)
        /\ (map satisfaction df = [5; 4; 3; 2; 1] -> x = Binary64.of_int 3)).
Proof.
  split.
  - intros ->. split; reflexivity.
  - intros Hne Hr Hlen.
    assert (Hn : 0 < Z.of_nat (length df))
      by (destruct df; [congruence | simpl; lia]).
    pose proof (satisfaction_sum_bounds df Hr) as Hs.
    destruct (SFdiv_rounds (Stated.satisfaction_sum df) (Z.of_nat (length df)))
      as (v & Hv & Hclose & Hexact); try lia.
    exists (Binary64.mean (map satisfaction df)), v.
    split; [destruct df; [congruence | reflexivity]|].
    split; [unfold Binary64.mean; now rewrite total_sum, length_map|].
    split; [exact Hclose|]. split; [exact Hexact|].
    intros ->. vm_compute. reflexivity.
Qed.

Lemma avg_sat_rounds_mean_witness :
  exists x v,
    Binary64.avg_sat Sample.spread = Some x
    /\ Binary64.value x = Some v
    /\ (Qabs (v - Stated.meanSatisfaction Sample.spread)
        <= Stated.meanSatisfaction Sample.spread * (1 # 2 ^ 53))%Q
    /\ ((Z.of_nat (length Sample.spread) | Stated.satisfaction_sum Sample.spread) ->
        (v == Stated.meanSatisfaction Sample.spread)%Q)
    /\ (map satisfaction Sample.spread = [5; 4; 3; 2; 1] ->
        x = Binary64.of_int 3).
Proof.
  apply (proj2 (avg_sat_rounds_mean Sample.spread)).
  - discriminate.
  - intros r Hr. simpl in Hr.
    repeat (destruct Hr as [<-|Hr]; [simpl; lia|]). destruct Hr.
  - simpl. lia.
Defined.

(** C7 as stated fails twice.  The average is a double, not the exact
    mean: for the satisfactions 1, 1, 2 it is
    6004799503160661 / 2 ^ 52, which is not 4 / 3.  And there is no
    average of no responses: the dashboard computes none, and the mean
    of an empty series is the NaN, not the 0 of the specification. *)
Lemma avg_sat_not_exact_mean :
  Binary64.avg_sat Visit.thirds
  = Some (S754_finite false 6004799503160661 (-52))
  /\ Binary64.value (S754_finite false 6004799503160661 (-52))
     = Some (6004799503160661 # 4503599627370496)
  /\ (Stated.meanSatisfaction Visit.thirds == 4 # 3)%Q
  /\ ~ (6004799503160661 # 4503599627370496 == 4 # 3)%Q
  /\ Binary64.avg_sat [] = None
  /\ Binary64.mean (map satisfaction []) = S754_nan
  /\ Binary64.value (Binary64.mean (map satisfaction [])) <> Some 0%Q
  /\ (Stated.meanSatisfaction [] == 0)%Q.
Proof.
  split; [vm_compute; reflexivity|]. split; [reflexivity|].
  split; [reflexivity|]. split; [discriminate|].
  split; [reflexivity|]. split; [reflexivity|].
  split; [discriminate | reflexivity].
Qed.


(** X20: a non-empty collection with satisfactions from 1 to 5 is
    rendered, and on its page the number of responses reporting a
    challenge lies between 0 and the number of responses; the
    financial finding is absent when nobody reports financial
    challenges and present when everybody does, and likewise the
    academic one. *)
Theorem challenge_counts_and_extremes (df : list response) :
  df <> [] ->
  (forall r, In r df -> 1 <= satisfaction r <= 5) ->
  exists f drawn,
    Chart.render df = Chart.page f drawn
    /\ 0 <= Insights.financial_yes f <= Insights.total_responses f
    /\ 0 <= Insights.academic_yes f <= Insights.total_responses f
    /\ (Insights.financial_yes f = 0 ->
        ~ In Insights.financial_support_needed (Insights.findings f))
    /\ (Insights.financial_yes f = Insights.total_responses f ->
        In Insights.financial_support_needed (Insights.findings f))
    /\ (Insights.academic_yes f = 0 ->
        ~ In Insights.academic_balance_concerns (Insights.findings f))
    /\ (Insights.academic_yes f = Insights.total_responses f ->
        In Insights.academic_balance_concerns (Insights.findings f)).
Proof.
  intros Hne Hr.
  destruct (render_in_range df Hne Hr) as (drawn & E & _).
  exists (Insights.analyse df), drawn.
  split; [exact E | now apply extremes_of_analyse].
Qed.

Lemma challenge_counts_and_extremes_witness :
  exists f drawn,
    Chart.render (Sample.council 0) = Chart.page f drawn
    /\ 0 <= Insights.financial_yes f <= Insights.total_responses f
    /\ 0 <= Insights.academic_yes f <= Insights.total_responses f
    /\ (Insights.financial_yes f = 0 ->
        ~ In Insights.financial_support_needed (Insights.findings f))
    /\ (Insights.financial_yes f = Insights.total_responses f ->
        In Insights.financial_support_needed (Insights.findings f))
    /\ (Insights.academic_yes f = 0 ->
        ~ In Insights.academic_balance_concerns (Insights.findings f))
    /\ (Insights.academic_yes f = Insights.total_responses f ->
        In Insights.academic_balance_concerns (Insights.findings f)).
Proof.
  apply (challenge_counts_and_extremes (Sample.council 0)).
  - discriminate.
  - apply council_in_range.
Defined.
